(** * Route guard and session guard of the storytelling application

    A shallow embedding of [src/middleware.js] (and of its second copy,
    the unnamed source part), of [src/contexts/AuthContext.jsx] and of
    the effect of [src/app/(dashboard)/my-stories/page.js] that reads
    the session, with the properties the specification states about
    them and further properties of the code.

    JavaScript strings are sequences of UTF-16 code units; they are
    embedded as lists of [N].  The built-ins the source calls
    ([decodeURIComponent], [JSON.parse], [JSON.stringify] of strings,
    the prefix and substring tests) are embedded after ECMA-262.

    The definitions come first: the built-ins, the guard and its copy,
    the provider, the way of a cookie from the document to the request,
    and the vocabulary of the statements.  The properties
    follow, those of the specification marked with the number of the
    claim (C1 to C10), the further ones numbered from X1 on. *)

From Stdlib Require Import NArith ZArith Ascii String.
From stdpp Require Import base option list gmap.

Set Default Proof Using "Type".

(** ** JavaScript strings *)

Module JS.

Local Open Scope N_scope.

(** A string value: its UTF-16 code units, in order. *)
Abbreviation jsstring := (list N).

(** The code unit of an ASCII character. *)
Definition ch (a : ascii) : N := N_of_ascii a.

(** A string literal of the source. *)
Definition js (s : string) : jsstring := ch <$> list_ascii_of_string s.

(** The double quote and the backslash. *)
Definition quote : N := 34.
Definition backslash : N := 92.

(** A string literal of the source written with ['] for the double
    quote. *)
Definition jsq (s : string) : jsstring :=
  (λ c, if c =? ch "'" then quote else c) <$> js s.

(** [s === t] on strings. *)
Fixpoint str_eqb (s t : jsstring) : bool :=
  match s, t with
  | [], [] => true
  | a :: s', b :: t' => (a =? b) && str_eqb s' t'
  | _, _ => false
  end.

(** [s.startsWith(pre)] *)
Fixpoint startsWith (pre s : jsstring) : bool :=
  match pre, s with
  | [], _ => true
  | _ :: _, [] => false
  | a :: pre', b :: s' => (a =? b) && startsWith pre' s'
  end.

(** [s.includes(needle)] *)
Fixpoint includes (needle s : jsstring) : bool :=
  startsWith needle s ||
  match s with
  | [] => false
  | _ :: s' => includes needle s'
  end.

(** [arr.includes(x)] on an array of strings. *)
Definition array_includes (arr : list jsstring) (x : jsstring) : bool :=
  existsb (str_eqb x) arr.

(** Errors a call can throw. *)
Inductive JSError :=
| URIError
| SyntaxError
| ExternalError (message : jsstring).

(** A computation that returns or throws. *)
Inductive result (A : Type) :=
| Ok (a : A)
| Throw (e : JSError).
Arguments Ok {A} a.
Arguments Throw {A} e.

#[global] Instance result_ret : MRet result := @Ok.
#[global] Instance result_bind : MBind result := λ A B f m,
  match m with Ok a => f a | Throw e => Throw e end.
#[global] Instance result_fmap : FMap result := λ A B f m,
  match m with Ok a => Ok (f a) | Throw e => Throw e end.

(** [try { body } catch (error) { handler(error) }] *)
Definition try_catch {A} (body : result A) (handler : JSError → A) : A :=
  match body with Ok a => a | Throw e => handler e end.

(** What is written on the console. *)
Inductive console_entry :=
| console_error (label : jsstring) (error : JSError)
| console_log (label : jsstring).

(** *** decodeURIComponent (ECMA-262, Decode with an empty reserved set) *)

Definition hex_digit (c : N) : option N :=
  if (48 <=? c) && (c <=? 57) then Some (c - 48)
  else if (65 <=? c) && (c <=? 70) then Some (c - 55)
  else if (97 <=? c) && (c <=? 102) then Some (c - 87)
  else None.

(** The input cut into literal code units and [%XY] octets. *)
Inductive uri_token :=
| Lit (c : N)
| Pct (octet : N).

Fixpoint uri_tokens (s : jsstring) : result (list uri_token) :=
  match s with
  | [] => Ok []
  | c :: rest =>
      if c =? ch "%" then
        match rest with
        | h1 :: h2 :: rest' =>
            match hex_digit h1, hex_digit h2 with
            | Some a, Some b => cons (Pct (16 * a + b)) <$> uri_tokens rest'
            | _, _ => Throw URIError
            end
        | _ => Throw URIError
        end
      else cons (Lit c) <$> uri_tokens rest
  end.

(** A continuation octet [10xxxxxx] gives its six payload bits. *)
Definition continuation (t : uri_token) : option N :=
  match t with
  | Pct b => if (128 <=? b) && (b <=? 191) then Some (b - 128) else None
  | Lit _ => None
  end.

(** The UTF-16 encoding of a code point. *)
Definition utf16 (cp : N) : jsstring :=
  if cp <? 65536 then [cp]
  else [55296 + (cp - 65536) / 1024; 56320 + (cp - 65536) mod 1024].

(** The code point of an octet sequence of the given length, when the
    sequence is a valid UTF-8 encoding: not overlong, no surrogate, at
    most U+10FFFF. *)
Definition utf8_code_point (len : nat) (cp : N) : result jsstring :=
  let lowest := match len with 2%nat => 128 | 3%nat => 2048 | _ => 65536 end in
  if (cp <? lowest) || ((55296 <=? cp) && (cp <=? 57343)) || (1114111 <? cp)
  then Throw URIError
  else Ok (utf16 cp).

Fixpoint uri_decode (ts : list uri_token) : result jsstring :=
  match ts with
  | [] => Ok []
  | Lit c :: ts1 => cons c <$> uri_decode ts1
  | Pct b :: ts1 =>
      if b <? 128 then cons b <$> uri_decode ts1
      else if (192 <=? b) && (b <=? 223) then
        match ts1 with
        | t1 :: ts2 =>
            match continuation t1 with
            | Some c1 =>
                u ← utf8_code_point 2 ((b - 192) * 64 + c1);
                app u <$> uri_decode ts2
            | None => Throw URIError
            end
        | _ => Throw URIError
        end
      else if (224 <=? b) && (b <=? 239) then
        match ts1 with
        | t1 :: t2 :: ts3 =>
            match continuation t1, continuation t2 with
            | Some c1, Some c2 =>
                u ← utf8_code_point 3 (((b - 224) * 64 + c1) * 64 + c2);
                app u <$> uri_decode ts3
            | _, _ => Throw URIError
            end
        | _ => Throw URIError
        end
      else if (240 <=? b) && (b <=? 247) then
        match ts1 with
        | t1 :: t2 :: t3 :: ts4 =>
            match continuation t1, continuation t2, continuation t3 with
            | Some c1, Some c2, Some c3 =>
                u ← utf8_code_point 4
                      ((((b - 240) * 64 + c1) * 64 + c2) * 64 + c3);
                app u <$> uri_decode ts4
            | _, _, _ => Throw URIError
            end
        | _ => Throw URIError
        end
      else Throw URIError
  end.

Definition decodeURIComponent (s : jsstring) : result jsstring :=
  ts ← uri_tokens s; uri_decode ts.

(** *** JSON values and JSON.parse (ECMA-262, ECMA-404) *)

(** A JSON number keeps its literal exactly: sign, decimal mantissa and
    power of ten.  Its Number value is the nearest double. *)
Record JSNumber := {
  negative : bool;
  mantissa : N;
  exponent10 : Z;
}.

#[warnings="-register-all"] Inductive JSValue :=
| JNull
| JBool (b : bool)
| JNumber (n : JSNumber)
| JString (s : jsstring)
| JArray (items : list JSValue)
| JObject (members : list (jsstring * JSValue)).

(** The Number value is [+0] or [-0]: the literal denotes zero, or a
    magnitude that rounds to zero (at most half the least subnormal,
    [2^-1075], the tie going to the even neighbour, zero). *)
Definition number_is_zero (n : JSNumber) : bool :=
  (mantissa n =? 0) ||
  ((exponent10 n <? 0)%Z &&
   (Z.of_N (mantissa n) * 2 ^ 1075 <=? 10 ^ (- exponent10 n))%Z).

(** ToBoolean *)
Definition truthy (v : JSValue) : bool :=
  match v with
  | JNull => false
  | JBool b => b
  | JNumber n => negb (number_is_zero n)
  | JString s => negb (str_eqb s [])
  | JArray _ | JObject _ => true
  end.

(** An own property of an object built by JSON.parse: of duplicate
    members the last one stays. *)
Fixpoint own_property (key : jsstring) (members : list (jsstring * JSValue))
  : option JSValue :=
  match members with
  | [] => None
  | (k, v) :: members' =>
      match own_property key members' with
      | Some v' => Some v'
      | None => if str_eqb k key then Some v else None
      end
  end.

(** [v.key] for a value that is neither null nor undefined and a key
    that no prototype defines; [None] is [undefined]. *)
Definition get (v : JSValue) (key : jsstring) : option JSValue :=
  match v with
  | JObject members => own_property key members
  | _ => None
  end.

(** [x === 'literal'] *)
Definition is_string (x : option JSValue) (literal : jsstring) : bool :=
  match x with
  | Some (JString s) => str_eqb s literal
  | _ => false
  end.

(** The outcome of reading a prefix of the text. *)
Inductive parsed (A : Type) :=
| Parsed (a : A) (rest : jsstring)
| Malformed
| OutOfFuel.
Arguments Parsed {A} a rest.
Arguments Malformed {A}.
Arguments OutOfFuel {A}.

Definition is_ws (c : N) : bool :=
  (c =? 9) || (c =? 10) || (c =? 13) || (c =? 32).

Fixpoint skip_ws (s : jsstring) : jsstring :=
  match s with
  | c :: s' => if is_ws c then skip_ws s' else s
  | [] => []
  end.

Definition is_digit (c : N) : bool := (48 <=? c) && (c <=? 57).

(** The characters of a string literal after its opening quote. *)
Fixpoint parse_chars (s : jsstring) : parsed jsstring :=
  let push c r :=
    match r with
    | Parsed str rest => Parsed (c :: str) rest
    | other => other
    end in
  match s with
  | [] => Malformed
  | c :: s1 =>
      if c =? quote then Parsed [] s1
      else if c =? backslash then
        match s1 with
        | e :: s2 =>
            if e =? ch "u" then
              match s2 with
              | h1 :: h2 :: h3 :: h4 :: s3 =>
                  match hex_digit h1, hex_digit h2, hex_digit h3, hex_digit h4 with
                  | Some a, Some b, Some c', Some d =>
                      push (((a * 16 + b) * 16 + c') * 16 + d) (parse_chars s3)
                  | _, _, _, _ => Malformed
                  end
              | _ => Malformed
              end
            else if e =? quote then push (quote) (parse_chars s2)
            else if e =? backslash then push (backslash) (parse_chars s2)
            else if e =? ch "/" then push (ch "/") (parse_chars s2)
            else if e =? ch "b" then push 8 (parse_chars s2)
            else if e =? ch "f" then push 12 (parse_chars s2)
            else if e =? ch "n" then push 10 (parse_chars s2)
            else if e =? ch "r" then push 13 (parse_chars s2)
            else if e =? ch "t" then push 9 (parse_chars s2)
            else Malformed
        | [] => Malformed
        end
      else if c <? 32 then Malformed
      else push c (parse_chars s1)
  end.

(** A maximal run of decimal digits: its value, its length, the rest. *)
Fixpoint digits (acc : N) (count : nat) (s : jsstring) : N * nat * jsstring :=
  match s with
  | c :: s' =>
      if is_digit c then digits (acc * 10 + (c - 48)) (S count) s'
      else (acc, count, s)
  | [] => (acc, count, [])
  end.

(** An optional minus, an integer part without a leading zero (or a
    single zero), an optional fraction and an optional exponent. *)
Definition parse_number (s : jsstring) : parsed JSNumber :=
  let (neg, s0) :=
    match s with
    | c :: s' => if c =? ch "-" then (true, s') else (false, s)
    | [] => (false, s)
    end in
  match s0 with
  | [] => Malformed
  | d :: s1 =>
      if negb (is_digit d) then Malformed else
      let '(int, _, s2) := if d =? ch "0" then (0, 1%nat, s1) else digits 0 0 s0 in
      let frac :=
        match s2 with
        | p :: s3 =>
            if p =? ch "." then
              let '(m, k, s4) := digits int 0 s3 in
              match k with
              | O => None
              | _ => Some (m, k, s4)
              end
            else Some (int, O, s2)
        | [] => Some (int, O, s2)
        end in
      match frac with
      | None => Malformed
      | Some (m, k, s4) =>
          let finish (e : Z) rest :=
            Parsed {| negative := neg; mantissa := m;
                      exponent10 := e - Z.of_nat k |} rest in
          match s4 with
          | x :: s5 =>
              if (x =? ch "e") || (x =? ch "E") then
                let (minus, s6) :=
                  match s5 with
                  | g :: s5' =>
                      if g =? ch "-" then (true, s5')
                      else if g =? ch "+" then (false, s5')
                      else (false, s5)
                  | [] => (false, s5)
                  end in
                let '(e, j, s7) := digits 0 0 s6 in
                match j with
                | O => Malformed
                | _ => finish (if minus then - Z.of_N e else Z.of_N e)%Z s7
                end
              else finish 0%Z s4
          | [] => finish 0%Z s4
          end
      end
  end.

(** A value, the elements of an array after its first bracket, and the
    members of an object after its first brace. *)
Fixpoint parse_value (fuel : nat) (s : jsstring) : parsed JSValue :=
  match fuel with
  | O => OutOfFuel
  | S fuel' =>
      match skip_ws s with
      | [] => Malformed
      | c :: s1 =>
          if c =? ch "{" then
            match skip_ws s1 with
            | c' :: s2 =>
                if c' =? ch "}" then Parsed (JObject []) s2
                else
                  match parse_members fuel' (c' :: s2) with
                  | Parsed ms rest => Parsed (JObject ms) rest
                  | Malformed => Malformed
                  | OutOfFuel => OutOfFuel
                  end
            | [] => Malformed
            end
          else if c =? ch "[" then
            match skip_ws s1 with
            | c' :: s2 =>
                if c' =? ch "]" then Parsed (JArray []) s2
                else
                  match parse_elements fuel' (c' :: s2) with
                  | Parsed vs rest => Parsed (JArray vs) rest
                  | Malformed => Malformed
                  | OutOfFuel => OutOfFuel
                  end
            | [] => Malformed
            end
          else if c =? quote then
            match parse_chars s1 with
            | Parsed str rest => Parsed (JString str) rest
            | Malformed => Malformed
            | OutOfFuel => OutOfFuel
            end
          else if startsWith (js "null") (c :: s1) then
            Parsed JNull (drop 4 (c :: s1))
          else if startsWith (js "true") (c :: s1) then
            Parsed (JBool true) (drop 4 (c :: s1))
          else if startsWith (js "false") (c :: s1) then
            Parsed (JBool false) (drop 5 (c :: s1))
          else
            match parse_number (c :: s1) with
            | Parsed n rest => Parsed (JNumber n) rest
            | Malformed => Malformed
            | OutOfFuel => OutOfFuel
            end
      end
  end
with parse_elements (fuel : nat) (s : jsstring) : parsed (list JSValue) :=
  match fuel with
  | O => OutOfFuel
  | S fuel' =>
      match parse_value fuel' s with
      | Parsed v rest =>
          match skip_ws rest with
          | c :: rest' =>
              if c =? ch "]" then Parsed [v] rest'
              else if c =? ch "," then
                match parse_elements fuel' rest' with
                | Parsed vs rest'' => Parsed (v :: vs) rest''
                | other => other
                end
              else Malformed
          | [] => Malformed
          end
      | Malformed => Malformed
      | OutOfFuel => OutOfFuel
      end
  end
with parse_members (fuel : nat) (s : jsstring)
  : parsed (list (jsstring * JSValue)) :=
  match fuel with
  | O => OutOfFuel
  | S fuel' =>
      match skip_ws s with
      | q :: s1 =>
          if q =? quote then
            match parse_chars s1 with
            | Parsed key s2 =>
                match skip_ws s2 with
                | colon :: s3 =>
                    if colon =? ch ":" then
                      match parse_value fuel' s3 with
                      | Parsed v rest =>
                          match skip_ws rest with
                          | c :: rest' =>
                              if c =? ch "}" then Parsed [(key, v)] rest'
                              else if c =? ch "," then
                                match parse_members fuel' rest' with
                                | Parsed ms rest'' => Parsed ((key, v) :: ms) rest''
                                | other => other
                                end
                              else Malformed
                          | [] => Malformed
                          end
                      | Malformed => Malformed
                      | OutOfFuel => OutOfFuel
                      end
                    else Malformed
                | [] => Malformed
                end
            | _ => Malformed
            end
          else Malformed
      | [] => Malformed
      end
  end.

(** [JSON.parse(text)]: one value between optional white space, or a
    SyntaxError.  Twice the length of the text, and one, is fuel enough
    ([parse_value_fuel]). *)
Definition JSON_parse (text : jsstring) : result JSValue :=
  match parse_value (S (2 * length text)) text with
  | Parsed v rest =>
      match skip_ws rest with
      | [] => Ok v
      | _ :: _ => Throw SyntaxError
      end
  | Malformed | OutOfFuel => Throw SyntaxError
  end.

(** *** JSON.stringify of strings (ECMA-262, QuoteJSONString) *)

Definition hex_char (d : N) : N := if d <? 10 then 48 + d else 87 + d.

(** [\uXXXX], in lower case. *)
Definition unicode_escape (c : N) : jsstring :=
  [backslash; ch "u"; hex_char (c / 4096 mod 16); hex_char (c / 256 mod 16);
   hex_char (c / 16 mod 16); hex_char (c mod 16)].

Definition is_high_surrogate (c : N) : bool := (55296 <=? c) && (c <=? 56319).
Definition is_low_surrogate (c : N) : bool := (56320 <=? c) && (c <=? 57343).

Definition quote_code_unit (c : N) : jsstring :=
  if c =? 8 then [backslash; ch "b"]
  else if c =? 9 then [backslash; ch "t"]
  else if c =? 10 then [backslash; ch "n"]
  else if c =? 12 then [backslash; ch "f"]
  else if c =? 13 then [backslash; ch "r"]
  else if c =? quote then [backslash; quote]
  else if c =? backslash then [backslash; backslash]
  else if (c <? 32) || is_high_surrogate c || is_low_surrogate c
  then unicode_escape c
  else [c].

(** A surrogate pair is written as it is, a lone surrogate escaped. *)
Fixpoint quote_chars (s : jsstring) : jsstring :=
  match s with
  | [] => []
  | c :: s1 =>
      if is_high_surrogate c then
        match s1 with
        | d :: s2 =>
            if is_low_surrogate d then c :: d :: quote_chars s2
            else unicode_escape c ++ quote_chars s1
        | [] => unicode_escape c
        end
      else quote_code_unit c ++ quote_chars s1
  end.

Definition QuoteJSONString (s : jsstring) : jsstring :=
  quote :: quote_chars s ++ [quote].

End JS.

Import JS.

(** ** The route guard: src/middleware.js *)

(** What the guard reads of a request: [request.nextUrl.pathname] and
    [request.cookies.get('user')?.value]. *)
Record Request := {
  pathname : jsstring;
  user_cookie : option jsstring;
}.

(** [NextResponse.next()] or [NextResponse.redirect(new URL(target,
    request.url))]. *)
Inductive NextResponse :=
| next
| redirect (target : jsstring).

(** What a run of the guard leaves: the response and the console. *)
Record Outcome := {
  response : NextResponse;
  console : list console_entry;
}.

Module Middleware.

(** [getUser]: the parsed cookie, or null; with what it logged. *)
Definition getUser (request : Request) : JSValue * list console_entry :=
  try_catch
    (match user_cookie request with
     | None | Some [] => Ok (JNull, [])
     | Some userCookie =>
         text ← decodeURIComponent userCookie;
         user ← JSON_parse text;
         Ok (user, [])
     end)
    (λ error, (JNull, [console_error (js "Invalid user cookie:") error])).

Definition publicRoutes : list jsstring :=
  [js "/"; js "/login"; js "/register"; js "/forgot-password";
   js "/reset-password"; js "/about"; js "/contact"].

Definition parentOnlyRoutes : list jsstring :=
  [js "/dashboard"; js "/create-story"; js "/edit-story"; js "/my-stories";
   js "/profile"; js "/settings"].

(** The test of the first [if]: static files and API routes. *)
Definition bypassed (pathname : jsstring) : bool :=
  startsWith (js "/_next") pathname ||
  startsWith (js "/api") pathname ||
  includes (js ".") pathname.

(** The test on the public routes: one of them, or under one of them. *)
Definition is_public (pathname : jsstring) : bool :=
  array_includes publicRoutes pathname ||
  existsb (λ route, startsWith (route ++ js "/") pathname) publicRoutes.

(** The test on the routes of parents. *)
Definition is_parent_only (pathname : jsstring) : bool :=
  existsb (λ route, str_eqb pathname route ||
                    startsWith (route ++ js "/") pathname) parentOnlyRoutes.

Definition middleware (request : Request) : Outcome :=
  let pathname := pathname request in
  if bypassed pathname then {| response := next; console := [] |}
  else
    let (user, console) := getUser request in
    let respond r := {| response := r; console := console |} in
    if is_public pathname then
      if truthy user &&
         (str_eqb pathname (js "/login") || str_eqb pathname (js "/register"))
      then respond (redirect (if is_string (get user (js "role")) (js "child")
                              then js "/" else js "/dashboard"))
      else respond next
    else if negb (truthy user) then respond (redirect (js "/login"))
    else if is_string (get user (js "role")) (js "parent") then
      if str_eqb pathname (js "/kid-dashboard") ||
         startsWith (js "/kid-dashboard/") pathname
      then respond (redirect (js "/dashboard"))
      else respond next
    else if is_string (get user (js "role")) (js "child") then
      if is_parent_only pathname then respond (redirect (js "/"))
      else respond next
    else respond next.

(** [config.matcher]: the paths the framework hands to [middleware], a
    slash and then anything that does not begin with [_next/static],
    [_next/image], [favicon], any one character, [ico], [public] or
    [api] (the path of a URL holds no line terminator). *)
Definition matcher (pathname : jsstring) : bool :=
  match pathname with
  | c :: rest =>
      (c =? ch "/")%N &&
      negb (startsWith (js "_next/static") rest ||
            startsWith (js "_next/image") rest ||
            (startsWith (js "favicon") rest &&
             match drop 7 rest with
             | _ :: rest' => startsWith (js "ico") rest'
             | [] => false
             end) ||
            startsWith (js "public") rest ||
            startsWith (js "api") rest)
  | [] => false
  end.

End Middleware.

(** ** The route guard, second copy: the unnamed source part *)

Module MiddlewareCopy.

(** [getUser] of this copy parses the cookie as it is. *)
Definition getUser (request : Request) : JSValue * list console_entry :=
  try_catch
    (match user_cookie request with
     | None | Some [] => Ok (JNull, [])
     | Some userCookie =>
         user ← JSON_parse userCookie;
         Ok (user, [])
     end)
    (λ error, (JNull, [console_error (js "Error parsing user cookie:") error])).

Definition publicRoutes : list jsstring :=
  [js "/"; js "/login"; js "/register"; js "/forgot-password";
   js "/reset-password"; js "/about"; js "/contact"].

Definition parentOnlyRoutes : list jsstring :=
  [js "/dashboard"; js "/create-story"; js "/edit-story"; js "/my-stories";
   js "/profile"; js "/settings"].

(** The message of the [console.log]; it begins with U+1F504. *)
Definition redirecting_child : jsstring :=
  [55357; 56580]%N ++
  js " Middleware: Redirecting child from parent route to home".

Definition middleware (request : Request) : Outcome :=
  let pathname := pathname request in
  if startsWith (js "/_next") pathname ||
     startsWith (js "/api") pathname ||
     includes (js ".") pathname
  then {| response := next; console := [] |}
  else
    let (user, console) := getUser request in
    let respond r := {| response := r; console := console |} in
    if array_includes publicRoutes pathname ||
       existsb (λ route, startsWith (route ++ js "/") pathname) publicRoutes
    then
      if truthy user &&
         (str_eqb pathname (js "/login") || str_eqb pathname (js "/register"))
      then
        if is_string (get user (js "role")) (js "child")
        then respond (redirect (js "/"))
        else respond (redirect (js "/dashboard"))
      else respond next
    else if negb (truthy user) then respond (redirect (js "/login"))
    else if is_string (get user (js "role")) (js "parent") then
      if str_eqb pathname (js "/kid-dashboard") ||
         startsWith (js "/kid-dashboard/") pathname
      then respond (redirect (js "/dashboard"))
      else respond next
    else if is_string (get user (js "role")) (js "child") then
      if existsb (λ route, str_eqb pathname route ||
                            startsWith (route ++ js "/") pathname)
           parentOnlyRoutes
      then {| response := redirect (js "/");
              console := console ++ [console_log redirecting_child] |}
      else respond next
    else respond next.

End MiddlewareCopy.

(** ** The session guard: src/contexts/AuthContext.jsx *)

(** The provider is embedded as a state and the callbacks that change
    it.  The clock is an argument: a callback that reads [Date.now()] or
    calls [setTimeout] takes the time [now] at which it runs.  The
    timeouts of the window are a table of pending entries, and the two
    refs hold ids into it, so that a timer is armed when the table says
    so, whatever the refs hold.  An asynchronous callback runs up to its
    [await] in one turn of the event loop and from the outcome of the
    awaited call on in a later turn; what the external calls
    ([logoutUser], [loginUser], [registerUser], [getDoc], [setDoc])
    answer is an argument.  A call of [setUser] is taken together with
    the render and the effects that follow it. *)

Module AuthContext.

Local Open Scope Z_scope.

Definition IDLE_TIME : Z := 30 * 60 * 1000.
Definition WARNING_TIME : Z := 5 * 60 * 1000.

(** A value stored in a user object or document: a plain value, or the
    sentinel that [serverTimestamp()] returns. *)
Inductive Field :=
| Plain (v : JSValue)
| ServerTimestamp.

(** Objects with string keys: user objects and documents. *)
Abbreviation Obj := (gmap jsstring Field).

(** The user of the identity service: [uid], [email], [displayName]
    ([None] is null). *)
Record AuthUser := {
  uid : jsstring;
  email : option jsstring;
  displayName : option jsstring;
}.

Definition nullable (x : option jsstring) : Field :=
  match x with
  | Some s => Plain (JString s)
  | None => Plain JNull
  end.

(** What [loginUser] resolves to, as far as [login] reads it. *)
Record LoggedInUser := {
  login_role : jsstring;
  login_email : jsstring;
}.

(** The two callbacks handed to [setTimeout]. *)
Inductive Callback :=
| ShowWarning
| HandleAutoLogout.

#[global] Instance Callback_eq_dec : EqDecision Callback.
Proof. solve_decision. Defined.

(** A pending timeout. *)
Record Timer := {
  timer_id : N;
  due : Z;
  callback : Callback;
}.

(** A write to the [users] collection: [setDoc(doc(db, 'users', id),
    data, { merge })]. *)
Record DocWrite := {
  doc_id : jsstring;
  doc_data : Obj;
  doc_merge : bool;
}.

(** The state of the provider and of what it acts on: its React state
    and refs, the timeouts of the window, the cookies of the document,
    [window.location.pathname], the pushes to the router, the console,
    the writes to the document store, and the calls suspended at
    [await logoutUser()]. *)
Record State := {
  user : option Obj;
  loading : bool;
  showIdleWarning : bool;
  idleTimerRef : option N;
  warningTimerRef : option N;
  lastActivityRef : Z;
  timers : list Timer;
  next_timer_id : N;
  cookies : gmap jsstring jsstring;
  location : jsstring;
  pushed : list jsstring;
  console : list console_entry;
  written : list DocWrite;
  awaiting_autoLogout : nat;
  awaiting_logout : nat;
}.

Definition set_user u s :=
  {| user := u; loading := loading s; showIdleWarning := showIdleWarning s;
     idleTimerRef := idleTimerRef s; warningTimerRef := warningTimerRef s;
     lastActivityRef := lastActivityRef s; timers := timers s;
     next_timer_id := next_timer_id s; cookies := cookies s;
     location := location s;
     pushed := pushed s; console := console s; written := written s;
     awaiting_autoLogout := awaiting_autoLogout s;
     awaiting_logout := awaiting_logout s |}.

Definition setLoading b s :=
  {| user := user s; loading := b; showIdleWarning := showIdleWarning s;
     idleTimerRef := idleTimerRef s; warningTimerRef := warningTimerRef s;
     lastActivityRef := lastActivityRef s; timers := timers s;
     next_timer_id := next_timer_id s; cookies := cookies s;
     location := location s;
     pushed := pushed s; console := console s; written := written s;
     awaiting_autoLogout := awaiting_autoLogout s;
     awaiting_logout := awaiting_logout s |}.

Definition setShowIdleWarning b s :=
  {| user := user s; loading := loading s; showIdleWarning := b;
     idleTimerRef := idleTimerRef s; warningTimerRef := warningTimerRef s;
     lastActivityRef := lastActivityRef s; timers := timers s;
     next_timer_id := next_timer_id s; cookies := cookies s;
     location := location s;
     pushed := pushed s; console := console s; written := written s;
     awaiting_autoLogout := awaiting_autoLogout s;
     awaiting_logout := awaiting_logout s |}.

Definition set_idleTimerRef r s :=
  {| user := user s; loading := loading s; showIdleWarning := showIdleWarning s;
     idleTimerRef := r; warningTimerRef := warningTimerRef s;
     lastActivityRef := lastActivityRef s; timers := timers s;
     next_timer_id := next_timer_id s; cookies := cookies s;
     location := location s;
     pushed := pushed s; console := console s; written := written s;
     awaiting_autoLogout := awaiting_autoLogout s;
     awaiting_logout := awaiting_logout s |}.

Definition set_warningTimerRef r s :=
  {| user := user s; loading := loading s; showIdleWarning := showIdleWarning s;
     idleTimerRef := idleTimerRef s; warningTimerRef := r;
     lastActivityRef := lastActivityRef s; timers := timers s;
     next_timer_id := next_timer_id s; cookies := cookies s;
     location := location s;
     pushed := pushed s; console := console s; written := written s;
     awaiting_autoLogout := awaiting_autoLogout s;
     awaiting_logout := awaiting_logout s |}.

Definition set_lastActivityRef t s :=
  {| user := user s; loading := loading s; showIdleWarning := showIdleWarning s;
     idleTimerRef := idleTimerRef s; warningTimerRef := warningTimerRef s;
     lastActivityRef := t; timers := timers s;
     next_timer_id := next_timer_id s; cookies := cookies s;
     location := location s;
     pushed := pushed s; console := console s; written := written s;
     awaiting_autoLogout := awaiting_autoLogout s;
     awaiting_logout := awaiting_logout s |}.

Definition set_timers ts n s :=
  {| user := user s; loading := loading s; showIdleWarning := showIdleWarning s;
     idleTimerRef := idleTimerRef s; warningTimerRef := warningTimerRef s;
     lastActivityRef := lastActivityRef s; timers := ts;
     next_timer_id := n; cookies := cookies s;
     location := location s;
     pushed := pushed s; console := console s; written := written s;
     awaiting_autoLogout := awaiting_autoLogout s;
     awaiting_logout := awaiting_logout s |}.

Definition set_cookies c s :=
  {| user := user s; loading := loading s; showIdleWarning := showIdleWarning s;
     idleTimerRef := idleTimerRef s; warningTimerRef := warningTimerRef s;
     lastActivityRef := lastActivityRef s; timers := timers s;
     next_timer_id := next_timer_id s; cookies := c;
     location := location s;
     pushed := pushed s; console := console s; written := written s;
     awaiting_autoLogout := awaiting_autoLogout s;
     awaiting_logout := awaiting_logout s |}.

Definition set_location path s :=
  {| user := user s; loading := loading s; showIdleWarning := showIdleWarning s;
     idleTimerRef := idleTimerRef s; warningTimerRef := warningTimerRef s;
     lastActivityRef := lastActivityRef s; timers := timers s;
     next_timer_id := next_timer_id s; cookies := cookies s;
     location := path;
     pushed := pushed s; console := console s; written := written s;
     awaiting_autoLogout := awaiting_autoLogout s;
     awaiting_logout := awaiting_logout s |}.

(** [router.push(url)] *)
Definition router_push url s :=
  {| user := user s; loading := loading s; showIdleWarning := showIdleWarning s;
     idleTimerRef := idleTimerRef s; warningTimerRef := warningTimerRef s;
     lastActivityRef := lastActivityRef s; timers := timers s;
     next_timer_id := next_timer_id s; cookies := cookies s;
     location := location s;
     pushed := pushed s ++ [url]; console := console s; written := written s;
     awaiting_autoLogout := awaiting_autoLogout s;
     awaiting_logout := awaiting_logout s |}.

(** [console.error(label, error)] *)
Definition console_error_ label error s :=
  {| user := user s; loading := loading s; showIdleWarning := showIdleWarning s;
     idleTimerRef := idleTimerRef s; warningTimerRef := warningTimerRef s;
     lastActivityRef := lastActivityRef s; timers := timers s;
     next_timer_id := next_timer_id s; cookies := cookies s;
     location := location s;
     pushed := pushed s; console := console s ++ [console_error label error];
     written := written s;
     awaiting_autoLogout := awaiting_autoLogout s;
     awaiting_logout := awaiting_logout s |}.

(** [setDoc(doc(db, 'users', id), data, { merge: true })] *)
Definition setDoc id data s :=
  {| user := user s; loading := loading s; showIdleWarning := showIdleWarning s;
     idleTimerRef := idleTimerRef s; warningTimerRef := warningTimerRef s;
     lastActivityRef := lastActivityRef s; timers := timers s;
     next_timer_id := next_timer_id s; cookies := cookies s;
     location := location s;
     pushed := pushed s; console := console s;
     written := written s ++ [{| doc_id := id; doc_data := data; doc_merge := true |}];
     awaiting_autoLogout := awaiting_autoLogout s;
     awaiting_logout := awaiting_logout s |}.

Definition set_awaiting a l s :=
  {| user := user s; loading := loading s; showIdleWarning := showIdleWarning s;
     idleTimerRef := idleTimerRef s; warningTimerRef := warningTimerRef s;
     lastActivityRef := lastActivityRef s; timers := timers s;
     next_timer_id := next_timer_id s; cookies := cookies s;
     location := location s;
     pushed := pushed s; console := console s; written := written s;
     awaiting_autoLogout := a; awaiting_logout := l |}.

(** [setTimeout(callback, delay)] at the time [now]: a fresh id, and
    the timeout pending. *)
Definition setTimeout (cb : Callback) (delay now : Z) (s : State) : N * State :=
  let id := next_timer_id s in
  (id, set_timers (timers s ++ [{| timer_id := id; due := now + delay;
                                   callback := cb |}])
                  (N.succ id) s).

(** [clearTimeout(ref.current)]; nothing happens for null or for an id
    that is not pending. *)
Definition clearTimeout (ref : option N) (s : State) : State :=
  match ref with
  | None => s
  | Some id =>
      set_timers (filter (λ t, timer_id t ≠ id) (timers s)) (next_timer_id s) s
  end.

(** A timeout with this callback is pending. *)
Definition armed (cb : Callback) (s : State) : bool :=
  existsb (λ t, bool_decide (callback t = cb)) (timers s).

(** *** The cookies of the document *)

(** The text before the first [sep], and the text after it when there
    is one. *)
Fixpoint break_at (sep : N) (s : jsstring) : jsstring * option jsstring :=
  match s with
  | [] => ([], None)
  | c :: s' =>
      if (c =? sep)%N then ([], Some s')
      else let (before, after) := break_at sep s' in (c :: before, after)
  end.

Fixpoint split_on (sep : N) (s : jsstring) : list jsstring :=
  match s with
  | [] => [[]]
  | c :: s' =>
      if (c =? sep)%N then [] :: split_on sep s'
      else match split_on sep s' with
           | first :: others => (c :: first) :: others
           | [] => [[c]]
           end
  end.

(** White space in a cookie string: the space and the tab. *)
Definition is_wsp (c : N) : bool := ((c =? 32) || (c =? 9))%N.

Fixpoint trim_start (s : jsstring) : jsstring :=
  match s with
  | c :: s' => if is_wsp c then trim_start s' else s
  | [] => []
  end.

Fixpoint trim_end (s : jsstring) : jsstring :=
  match s with
  | [] => []
  | c :: s' =>
      match trim_end s' with
      | [] => if is_wsp c then [] else [c]
      | rest => c :: rest
      end
  end.

Definition trim (s : jsstring) : jsstring := trim_end (trim_start s).

(** A letter of ASCII in lower case. *)
Definition ascii_lower (c : N) : N :=
  (if (65 <=? c) && (c <=? 90) then c + 32 else c)%N.

(** The seconds of a [Max-Age] attribute: its name is compared without
    regard to case, its value is an optional minus and decimal digits;
    any other attribute, and a [Max-Age] with another value, gives
    nothing. *)
Definition max_age (attribute : jsstring) : option Z :=
  let (name, value) := break_at (ch "=") attribute in
  if str_eqb (ascii_lower <$> trim name) (js "max-age") then
    match trim (default [] value) with
    | c :: rest =>
        let (minus, ds) :=
          if (c =? ch "-")%N then (true, rest) else (false, c :: rest) in
        match ds with
        | [] => None
        | _ :: _ =>
            if forallb is_digit ds then
              let n := Z.of_N (foldl (λ acc d, acc * 10 + (d - 48))%N 0%N ds) in
              Some (if minus then - n else n)
            else None
        end
    | [] => None
    end
  else None.

(** The seconds of the last [Max-Age] attribute of the list. *)
Definition expiry (attributes : list jsstring) : option Z :=
  foldl (λ found a, match max_age a with Some delta => Some delta | None => found end)
        None attributes.

(** [document.cookie = text] after RFC 6265, section 5.2, as far as
    the text decides it: the text up to the first semicolon is
    [name=value], both without the white space around them (a text
    without an equals sign is a value without a name, as browsers have
    it); of the attributes that follow, the last [Max-Age] removes the
    cookie when its seconds are not positive; otherwise the cookie is
    stored.  The attributes whose effect depends on the origin of the
    document or on the clock ([Expires], [Domain], [Secure],
    [HttpOnly], [SameSite]) are not embedded, nor are the limits of a
    browser on the size and the control characters of a cookie; a text
    of this provider holds an attribute other than its own [path=/]
    and [Max-Age=0] only when a role or an email holds a semicolon. *)
Definition document_cookie_assign (text : jsstring)
    (jar : gmap jsstring jsstring) : gmap jsstring jsstring :=
  match split_on (ch ";") text with
  | [] => jar
  | name_value :: attributes =>
      let (name, value) :=
        match break_at (ch "=") name_value with
        | (name, Some value) => (trim name, trim value)
        | (value, None) => ([], trim value)
        end in
      match expiry attributes with
      | Some delta =>
          if delta <=? 0 then delete name jar else <[name := value]> jar
      | None => <[name := value]> jar
      end
  end.

Definition assign_document_cookie text s :=
  set_cookies (document_cookie_assign text (cookies s)) s.

(** [JSON.stringify({ role, email })] for two strings. *)
Definition stringify_role_email (role email : jsstring) : jsstring :=
  js "{" ++ QuoteJSONString (js "role") ++ js ":" ++ QuoteJSONString role ++
  js "," ++ QuoteJSONString (js "email") ++ js ":" ++ QuoteJSONString email ++
  js "}".

(** *** The callbacks of the provider *)

Definition clearIdleTimers (s : State) : State :=
  clearTimeout (warningTimerRef s) (clearTimeout (idleTimerRef s) s).

(** [handleAutoLogout] up to [await logoutUser()] ... *)
Definition handleAutoLogout_begin (s : State) : State :=
  let s := clearIdleTimers (setShowIdleWarning false s) in
  set_awaiting (S (awaiting_autoLogout s)) (awaiting_logout s) s.

(** The effect on [user]: the cleanup of its last run, which was set up
    when the user was not null, then its body for the new user. *)
Definition user_effect_cleanup (s : State) : State :=
  match user s with
  | Some _ => clearIdleTimers s
  | None => s
  end.

Definition showWarning (now : Z) (s : State) : State :=
  let s := setShowIdleWarning true s in
  let (id, s) := setTimeout HandleAutoLogout WARNING_TIME now s in
  set_idleTimerRef (Some id) s.

Definition resetIdleTimer (now : Z) (s : State) : State :=
  match user s with
  | None => s
  | Some _ =>
      let s := set_lastActivityRef now s in
      let s := setShowIdleWarning false s in
      let s := clearIdleTimers s in
      let (id, s) := setTimeout ShowWarning (IDLE_TIME - WARNING_TIME) now s in
      set_warningTimerRef (Some id) s
  end.

(** The effect on [user] and [router]: a child on [/dashboard] is sent
    to [/]. *)
Definition child_effect (s : State) : State :=
  match user s with
  | Some u =>
      match u !! js "role" with
      | Some (Plain (JString role)) =>
          if str_eqb role (js "child") && str_eqb (location s) (js "/dashboard")
          then router_push (js "/") s
          else s
      | _ => s
      end
  | None => s
  end.

(** [setUser(u)] with the effects that follow the render, taken to run
    before any other event: the cleanup and the body of the effect that
    arms the timers (its event listeners are those of
    [handleUserActivity] below), then the effect for children. *)
Definition setUser (now : Z) (u : option Obj) (s : State) : State :=
  child_effect (resetIdleTimer now (set_user u (user_effect_cleanup s))).

(** ... and [handleAutoLogout] from the outcome of [logoutUser()] on. *)
Definition handleAutoLogout_settle (now : Z) (outcome : result ()) (s : State)
  : State :=
  let s := set_awaiting (pred (awaiting_autoLogout s)) (awaiting_logout s) s in
  match outcome with
  | Ok _ =>
      let s := assign_document_cookie (js "user=;Max-Age=0; path=/") s in
      let s := setUser now None s in
      router_push (js "/login?reason=idle") s
  | Throw error => console_error_ (js "Logout error:") error s
  end.

(** [handleAutoLogout] when nothing else runs while it waits. *)
Definition handleAutoLogout (now : Z) (outcome : result ()) (s : State) : State :=
  handleAutoLogout_settle now outcome (handleAutoLogout_begin s).

Definition handleUserActivity (now : Z) (s : State) : State :=
  match user s with
  | Some _ =>
      if 1000 <? now - lastActivityRef s then resetIdleTimer now s else s
  | None => s
  end.

Definition extendSession (now : Z) (s : State) : State := resetIdleTimer now s.

Definition userObject (a : AuthUser) (data : Obj) : Obj :=
  data ∪ <[js "uid" := Plain (JString (uid a))]>
          (<[js "email" := nullable (email a)]>
          (<[js "displayName" := nullable (displayName a)]> ∅)).

(** [refreshUser]: [currentUser] is [auth.currentUser], [userDoc] the
    outcome of [getDoc], [None] for a document that does not exist. *)
Definition refreshUser (now : Z) (currentUser : option AuthUser)
    (userDoc : result (option Obj)) (s : State) : State :=
  match currentUser with
  | Some a =>
      match userDoc with
      | Ok (Some userData) => setUser now (Some (userObject a userData)) s
      | Ok None => s
      | Throw error => console_error_ (js "Refresh user error:") error s
      end
  | None => s
  end.

(** [register]: the new state, and what the call resolves to. *)
Definition register (email role : jsstring) (registered : result ())
    (loggedIn : result LoggedInUser) (s : State) : State * result LoggedInUser :=
  match registered ≫= λ _, loggedIn with
  | Ok loggedInUser =>
      let s := assign_document_cookie
                 (js "user=" ++ stringify_role_email role email ++ js "; path=/")
                 s in
      (router_push (if str_eqb role (js "parent") then js "/dashboard" else js "/") s,
       Ok loggedInUser)
  | Throw error => (console_error_ (js "Register error:") error s, Throw error)
  end.

Definition login (loggedIn : result LoggedInUser) (s : State)
  : State * result LoggedInUser :=
  match loggedIn with
  | Ok user =>
      (assign_document_cookie
         (js "user=" ++ stringify_role_email (login_role user) (login_email user)
          ++ js "; path=/") s,
       Ok user)
  | Throw error => (console_error_ (js "Login error:") error s, Throw error)
  end.

(** [logout] up to [await logoutUser()] ... *)
Definition logout_begin (s : State) : State :=
  let s := setShowIdleWarning false (clearIdleTimers s) in
  set_awaiting (awaiting_autoLogout s) (S (awaiting_logout s)) s.

(** ... and from its outcome on. *)
Definition logout_settle (outcome : result ()) (s : State) : State * result () :=
  let s := set_awaiting (awaiting_autoLogout s) (pred (awaiting_logout s)) s in
  match outcome with
  | Ok _ =>
      let s := assign_document_cookie (js "user=;Max-Age=0; path=/") s in
      (router_push (js "/login") s, Ok ())
  | Throw error => (console_error_ (js "Logout error:") error s, Throw error)
  end.

(** The profile made up for a user without a document. *)
Definition defaultData (a : AuthUser) : Obj :=
  <[js "email" := nullable (email a)]>
  (<[js "displayName" := Plain (JString (default [] (displayName a)))]>
  (<[js "role" := Plain (JString (js "parent"))]>
  (<[js "familyId" := Plain (JString (uid a))]>
  (<[js "createdAt" := ServerTimestamp]>
  (<[js "updatedAt" := ServerTimestamp]> ∅))))).

(** The callback given to [onAuthStateChanged]: [userDoc] is the
    outcome of [getDoc], [stored] that of [setDoc] when it is called.
    A rejection of either ends the callback where it stands. *)
Definition onAuthStateChanged (now : Z) (authUser : option AuthUser)
    (userDoc : result (option Obj)) (stored : result ()) (s : State) : State :=
  match authUser with
  | Some a =>
      match userDoc with
      | Ok (Some data) => setLoading false (setUser now (Some (userObject a data)) s)
      | Ok None =>
          match stored with
          | Ok _ =>
              let s := setDoc (uid a) (defaultData a) s in
              let s := setUser now
                         (Some (defaultData a ∪
                                <[js "uid" := Plain (JString (uid a))]> ∅)) s in
              setLoading false s
          | Throw _ => s
          end
      | Throw _ => s
      end
  | None =>
      let s := clearIdleTimers s in
      let s := setShowIdleWarning false s in
      let s := setUser now None s in
      setLoading false s
  end.

(** *** The event loop *)

(** A pending timeout that is due runs its callback. *)
Definition fire (now : Z) (id : N) (s : State) : option State :=
  match filter (λ t, timer_id t = id) (timers s) with
  | t :: _ =>
      if due t <=? now then
        let s := clearTimeout (Some id) s in
        Some match callback t with
             | ShowWarning => showWarning now s
             | HandleAutoLogout => handleAutoLogout_begin s
             end
      else None
  | [] => None
  end.

(** What can happen to the provider: the callbacks of the identity
    service, the calls of its consumers with the outcomes of the
    external calls they make, the events of the document, the buttons
    of the warning, the timeouts, and the window arriving at a path. *)
Inductive Event :=
| AuthStateChanged (authUser : option AuthUser)
    (userDoc : result (option Obj)) (stored : result ())
| RefreshUser (currentUser : option AuthUser) (userDoc : result (option Obj))
| Register (email role : jsstring) (registered : result ())
    (loggedIn : result LoggedInUser)
| Login (loggedIn : result LoggedInUser)
| Logout
| LogoutSettled (outcome : result ())
| LogoutNow
| AutoLogoutSettled (outcome : result ())
| UserActivity
| StayLoggedIn
| Timeout (id : N)
| Navigated (path : jsstring).

(** One turn of the event loop at the time [now]; [None] when the
    event cannot happen in this state. *)
Definition handle (now : Z) (ev : Event) (s : State) : option State :=
  match ev with
  | AuthStateChanged authUser userDoc stored =>
      Some (onAuthStateChanged now authUser userDoc stored s)
  | RefreshUser currentUser userDoc =>
      Some (refreshUser now currentUser userDoc s)
  | Register email role registered loggedIn =>
      Some (register email role registered loggedIn s).1
  | Login loggedIn => Some (login loggedIn s).1
  | Logout => Some (logout_begin s)
  | LogoutSettled outcome =>
      match awaiting_logout s with
      | O => None
      | S _ => Some (logout_settle outcome s).1
      end
  | LogoutNow => Some (handleAutoLogout_begin s)
  | AutoLogoutSettled outcome =>
      match awaiting_autoLogout s with
      | O => None
      | S _ => Some (handleAutoLogout_settle now outcome s)
      end
  | UserActivity => Some (handleUserActivity now s)
  | StayLoggedIn => Some (extendSession now s)
  | Timeout id => fire now id s
  | Navigated path => Some (set_location path s)
  end.

(** The provider when it mounts at the time [now], the document
    holding the cookies [jar], the window at [path]. *)
Definition initial (now : Z) (jar : gmap jsstring jsstring) (path : jsstring)
  : State :=
  {| user := None; loading := true; showIdleWarning := false;
     idleTimerRef := None; warningTimerRef := None; lastActivityRef := now;
     timers := []; next_timer_id := 1; cookies := jar; location := path;
     pushed := [];
     console := []; written := []; awaiting_autoLogout := 0;
     awaiting_logout := 0 |}.

Inductive reachable : State → Prop :=
| reachable_initial now jar path : reachable (initial now jar path)
| reachable_handle s now ev s' :
    reachable s → handle now ev s = Some s' → reachable s'.

(** A run of events, each with its time. *)
Fixpoint run (evs : list (Z * Event)) (s : State) : option State :=
  match evs with
  | [] => Some s
  | (now, ev) :: evs' => handle now ev s ≫= run evs'
  end.

(** *** Time passing without any other event *)

(** The first pending timeout that is due at [now]. *)
Definition due_timer (now : Z) (s : State) : option Timer :=
  head (filter (λ t, due t ≤ now) (timers s)).

(** The timeouts due up to [now] run, each at its due time, the
    automatic logout with the given outcome of [logoutUser()]. *)
Definition fire_due (outcome : result ()) (now : Z) (s : State) : State :=
  match due_timer now s with
  | Some t =>
      let s := clearTimeout (Some (timer_id t)) s in
      match callback t with
      | ShowWarning => showWarning (due t) s
      | HandleAutoLogout => handleAutoLogout (due t) outcome s
      end
  | None => s
  end.

(** In this provider at most two timeouts run in a row, the warning and
    then the logout. *)
Definition elapse (outcome : result ()) (now : Z) (s : State) : State :=
  fire_due outcome now (fire_due outcome now s).

End AuthContext.

(** ** A consumer of the session: src/app/(dashboard)/my-stories/page.js *)

(** The page takes [user] and [loading] from the context of the
    provider, and pushes to the same router.  Its effect on [user],
    [authLoading] and [router] is embedded as a function of the state
    of the provider; it runs after a render in which one of them
    changed. *)

Module MyStories.
Import AuthContext.

(** [user.role === role] for a user that is not null. *)
Definition role_is (u : Obj) (role : jsstring) : bool :=
  match u !! js "role" with
  | Some (Plain (JString r)) => str_eqb r role
  | _ => false
  end.

(** The effect of the page on [user], [authLoading] and [router]: once
    the provider has loaded, whoever is not a parent is sent to
    [/login]. *)
Definition redirect_effect (s : State) : State :=
  if negb (loading s) &&
     match user s with
     | None => true
     | Some u => negb (role_is u (js "parent"))
     end
  then router_push (js "/login") s
  else s.

End MyStories.

(** ** From the document to the request *)

(** Between [document.cookie] and [request.cookies.get('user')?.value]
    are the browser, which sends the cookies of the document in the
    [Cookie] header, a value as the octets of its UTF-8 encoding; the
    server, which reads a header one code unit for each octet; and the
    [RequestCookies] of the framework ([parseCookie] of
    @edge-runtime/cookies), which cuts the header at the semicolons and
    each pair at its first equals sign, decodes the value of a pair
    with [decodeURIComponent], and leaves out a pair whose value does
    not decode.  A value that the document holds has no semicolon in
    it, so that the pair of a cookie is the cookie. *)

Module Transport.

Local Open Scope N_scope.

(** The octets of the UTF-8 encoding of a code point. *)
Definition utf8_octets (cp : N) : list N :=
  if cp <? 128 then [cp]
  else if cp <? 2048 then [192 + cp / 64; 128 + cp mod 64]
  else if cp <? 65536
       then [224 + cp / 4096; 128 + cp / 64 mod 64; 128 + cp mod 64]
       else [240 + cp / 262144; 128 + cp / 4096 mod 64;
             128 + cp / 64 mod 64; 128 + cp mod 64].

(** The octets of a string: a surrogate pair is one code point, a lone
    surrogate is sent as U+FFFD. *)
Fixpoint utf8_encode (s : jsstring) : list N :=
  match s with
  | [] => []
  | c :: s1 =>
      if is_high_surrogate c then
        match s1 with
        | d :: s2 =>
            if is_low_surrogate d
            then utf8_octets (65536 + (c - 55296) * 1024 + (d - 56320))
                 ++ utf8_encode s2
            else utf8_octets 65533 ++ utf8_encode s1
        | [] => utf8_octets 65533
        end
      else if is_low_surrogate c then utf8_octets 65533 ++ utf8_encode s1
      else utf8_octets c ++ utf8_encode s1
  end.

(** What [parseCookie] keeps of the value of a pair. *)
Definition parseCookie_value (value : jsstring) : option jsstring :=
  match decodeURIComponent value with
  | Ok decoded => Some decoded
  | Throw _ => None
  end.

(** [request.cookies.get(name)?.value] of a request sent while the
    document holds the cookie with the value [stored], or does not
    hold it. *)
Definition request_cookie (stored : option jsstring) : option jsstring :=
  value ← stored; parseCookie_value (utf8_encode value).

End Transport.

(** * Vocabulary of the statements *)

Module Text.
Import JS.

Local Open Scope N_scope.

(** A string of 16-bit code units. *)
Definition well_formed (s : jsstring) : Prop := Forall (λ c, c < 65536) s.

(** The characters that quoting can add. *)
Definition quoting (x : N) : Prop :=
  x = backslash ∨ x = quote ∨ 48 ≤ x ≤ 57 ∨ 97 ≤ x ≤ 117.

(** A string of ASCII, and one of its printable characters. *)
Definition ascii (s : jsstring) : Prop := Forall (λ c, c < 128) s.
Definition printable (s : jsstring) : Prop := Forall (λ c, 32 ≤ c ≤ 126) s.

End Text.

Module Guard.
Import Middleware.

(** The session a request carries: what [getUser] makes of its cookie. *)
Definition session (request : Request) : JSValue := (getUser request).1.

(** The cookie does not decode, or what it decodes to does not parse. *)
Definition malformed (cookie : jsstring) : Prop :=
  ∃ error, decodeURIComponent cookie ≫= JSON_parse = Throw error.

(** No session: the value that [middleware] tests with [!user] is
    falsy. *)
Definition no_session (request : Request) : Prop :=
  truthy (session request) = false.

(** The session has this role: [user.role === role]. *)
Definition has_role (request : Request) (role : jsstring) : Prop :=
  is_string (get (session request) (js "role")) role = true.

(** The same for the second copy of the guard, which does not decode
    the cookie. *)
Definition session_copy (request : Request) : JSValue :=
  (MiddlewareCopy.getUser request).1.

Definition malformed_copy (cookie : jsstring) : Prop :=
  ∃ error, JSON_parse cookie = Throw error.

(** What both copies answer from the path and the user that [getUser]
    returned, once the path is not bypassed ([middleware_decision],
    [copy_decision]). *)
Definition decision (pathname : jsstring) (user : JSValue) : NextResponse :=
  if is_public pathname then
    if truthy user &&
       (str_eqb pathname (js "/login") || str_eqb pathname (js "/register"))
    then redirect (if is_string (get user (js "role")) (js "child")
                   then js "/" else js "/dashboard")
    else next
  else if negb (truthy user) then redirect (js "/login")
  else if is_string (get user (js "role")) (js "parent") then
    if str_eqb pathname (js "/kid-dashboard") ||
       startsWith (js "/kid-dashboard/") pathname
    then redirect (js "/dashboard") else next
  else if is_string (get user (js "role")) (js "child") then
    if is_parent_only pathname then redirect (js "/") else next
  else next.

(** Cookies used below. *)
Definition child_cookie : jsstring := jsq "{'role':'child','email':'kid@example.org'}".
Definition parent_cookie : jsstring := jsq "{'role':'parent','email':'mum@example.org'}".

End Guard.

Module Session.
Import AuthContext.

Local Open Scope Z_scope.

(** The shapes of the state as to timeouts: none pending, and then a
    visible warning only once the user is null; or the warning timer
    alone, held by its ref, the warning hidden; or the logout timer
    alone, held by its ref, the warning visible; the last two only with
    a user. *)
Definition Inv (s : State) : Prop :=
  (timers s = [] ∧ (showIdleWarning s = true → user s = None)) ∨
  (∃ t, timers s = [t] ∧ callback t = ShowWarning ∧
        warningTimerRef s = Some (timer_id t) ∧
        showIdleWarning s = false ∧ user s ≠ None) ∨
  (∃ t, timers s = [t] ∧ callback t = HandleAutoLogout ∧
        idleTimerRef s = Some (timer_id t) ∧
        showIdleWarning s = true ∧ user s ≠ None).

(** Every pending timeout is held by one of the two refs, so that
    [clearIdleTimers] leaves none pending. *)
Definition held (s : State) : Prop :=
  ∀ t, t ∈ timers s →
       idleTimerRef s = Some (timer_id t) ∨ warningTimerRef s = Some (timer_id t).

(** A session used below: a parent logs in and is signed in when the
    provider mounts, at the time 0. *)
Definition mum : AuthUser :=
  {| uid := js "u1"; email := Some (js "mum@example.org");
     displayName := Some (js "Mum") |}.

Definition mum_doc : Obj :=
  <[js "role" := Plain (JString (js "parent"))]>
  (<[js "familyId" := Plain (JString (js "u1"))]> ∅).

Definition signed_in : State :=
  onAuthStateChanged 0 (Some mum) (Ok (Some mum_doc)) (Ok ())
    (login (Ok {| login_role := js "parent";
                  login_email := js "mum@example.org" |})
       (initial 0 ∅ (js "/login"))).1.

Definition network_error : JSError := ExternalError (js "auth/network-request-failed").

Definition signing_in : list (Z * Event) :=
  [(0, Login (Ok {| login_role := js "parent";
                    login_email := js "mum@example.org" |}));
   (0, AuthStateChanged (Some mum) (Ok (Some mum_doc)) (Ok ()))].

(** The session left alone until the automatic logout, which fails. *)
Definition failing_logout : list (Z * Event) :=
  signing_in ++
  [(1500000, Timeout 1); (1800000, Timeout 2);
   (1800000, AutoLogoutSettled (Throw network_error))].

End Session.

Module Cookie.
Import AuthContext.

(** The cookie that [login] leaves in the document for a user, and
    the request for a path that the browser then sends. *)
Definition cookie_after_login (u : LoggedInUser) : option jsstring :=
  cookies (login (Ok u) (initial 0 ∅ (js "/login"))).1 !! js "user".

Definition request_after_login (u : LoggedInUser) (path : jsstring) : Request :=
  {| pathname := path;
     user_cookie := Transport.request_cookie (cookie_after_login u) |}.

Definition discount : LoggedInUser :=
  {| login_role := js "parent"; login_email := js "50%off@example.org" |}.

End Cookie.

Module Idle.
Import AuthContext.
Local Open Scope Z_scope.

(** Every pending timeout against the last recorded activity: the
    warning is due [IDLE_TIME - WARNING_TIME] after it, the logout no
    earlier than [IDLE_TIME] after it. *)
Definition on_schedule (s : State) : Prop :=
  ∀ t, t ∈ timers s →
       match callback t with
       | ShowWarning => due t = lastActivityRef s + (IDLE_TIME - WARNING_TIME)
       | HandleAutoLogout => lastActivityRef s + IDLE_TIME ≤ due t
       end.

End Idle.

Module Calls.
Import AuthContext.

(** [logout] when nothing else runs while it waits. *)
Definition logout (outcome : result ()) (s : State) : State * result () :=
  logout_settle outcome (logout_begin s).

(** The callback of the identity service runs to its end: no awaited
    call rejects, so that it reaches [setLoading(false)]. *)
Definition completes (ev : Event) : bool :=
  match ev with
  | AuthStateChanged None _ _ => true
  | AuthStateChanged (Some _) (Ok (Some _)) _ => true
  | AuthStateChanged (Some _) (Ok None) (Ok _) => true
  | _ => false
  end.

End Calls.

Module Answers.

(** The guard lets the request pass and logs nothing. *)
Definition pass : Outcome := {| response := next; console := [] |}.

End Answers.

(** Case analysis on the tests of the conditionals of the goal, each
    test taken as a whole. *)
Ltac case_tests :=
  repeat match goal with
         | |- context [if ?b then _ else _] => destruct b eqn:?
         end.

(** A hypothesis that a shorter text was read gives, by the induction
    hypothesis, what is left of it. *)
Ltac use_IH IH :=
  repeat match goal with
         | H : _ = JS.Parsed _ _ |- _ => apply IH in H; [|simpl; lia]
         end.

(** A closed option is not [None]: it evaluates to [Some]. *)
Ltac evaluates_to_some :=
  lazymatch goal with
  | |- ?f ≠ None =>
      let H := fresh in
      assert (is_Some f) as [? H] by (eexists; vm_compute; reflexivity);
      rewrite H; discriminate
  end.

(** The tests of the goal on closed terms, decided by computation. *)
Ltac decide_test :=
  match goal with
  | |- context [JS.is_ws ?c] =>
      let v := eval vm_compute in (JS.is_ws c) in
      lazymatch v with
      | true => change (JS.is_ws c) with true
      | false => change (JS.is_ws c) with false
      end
  | |- context [N.eqb ?a ?b] =>
      let v := eval vm_compute in (N.eqb a b) in
      lazymatch v with
      | true => change (N.eqb a b) with true
      | false => change (N.eqb a b) with false
      end
  end.

Ltac decide_tests :=
  repeat first [decide_test; cbv beta iota | progress cbn [skip_ws]].

(** * Properties *)

(** ** Strings, decoding and parsing *)

Module JSFacts.
Import Text.

Example decode_plain :
  decodeURIComponent (js "a%20b") = Ok (js "a b").
Proof. vm_compute. reflexivity. Qed.

Example decode_bad :
  decodeURIComponent (js "50%off") = Throw URIError.
Proof. vm_compute. reflexivity. Qed.

Example decode_utf8 :
  decodeURIComponent (js "%C3%A9%F0%9F%98%80") = Ok [233; 55357; 56832]%N.
Proof. vm_compute. reflexivity. Qed.

Example decode_overlong :
  decodeURIComponent (js "%C0%80") = Throw URIError.
Proof. vm_compute. reflexivity. Qed.

Example parse_user :
  JSON_parse (jsq "{'role':'child','email':'k@x.org'}")
  = Ok (JObject [(js "role", JString (js "child"));
                 (js "email", JString (js "k@x.org"))]).
Proof. vm_compute. reflexivity. Qed.

Example parse_nested :
  JSON_parse (jsq " [1, -0.50e+2, {}, [], 'a\u0041\n', true, null ] ")
  = Ok (JArray [JNumber {| negative := false; mantissa := 1; exponent10 := 0 |};
                JNumber {| negative := true; mantissa := 50; exponent10 := 0 |};
                JObject []; JArray [];
                JString [97; 65; 10]%N; JBool true; JNull]).
Proof. vm_compute. reflexivity. Qed.

Example parse_malformed :
  JSON_parse (js "{role:1}") = Throw SyntaxError ∧
  JSON_parse (js "01") = Throw SyntaxError ∧
  JSON_parse (js "[1,]") = Throw SyntaxError ∧
  JSON_parse [] = Throw SyntaxError ∧
  JSON_parse (js "1.") = Throw SyntaxError ∧
  JSON_parse (js "nulll") = Throw SyntaxError.
Proof. vm_compute. split_and!; reflexivity. Qed.

(** A literal that rounds to zero is falsy. *)
Example truthy_underflow :
  truthy <$> JSON_parse (js "1e-400") = Ok false ∧
  truthy <$> JSON_parse (js "1e-300") = Ok true ∧
  truthy <$> JSON_parse (js "-0.0") = Ok false.
Proof. vm_compute. split_and!; reflexivity. Qed.

Section strings.
Implicit Types s t pre rest needle : jsstring.

Lemma str_eqb_eq s t : str_eqb s t = true ↔ s = t.
Proof.
  revert t. induction s as [|a s IH]; intros [|b t]; simpl; try done.
  rewrite andb_true_iff, N.eqb_eq, IH. naive_solver.
Qed.

Lemma str_eqb_refl s : str_eqb s s = true.
Proof. by apply str_eqb_eq. Qed.

Lemma str_eqb_neq s t : str_eqb s t = false ↔ s ≠ t.
Proof.
  rewrite <- str_eqb_eq. destruct (str_eqb s t); naive_solver.
Qed.

Lemma startsWith_app pre s :
  startsWith pre s = true ↔ ∃ rest, s = pre ++ rest.
Proof.
  revert s. induction pre as [|a pre IH]; intros s; simpl.
  - split; [eauto|done].
  - destruct s as [|b s]; [split; [done|intros [? ?]; done]|].
    rewrite andb_true_iff, N.eqb_eq, IH. split.
    + intros [-> [rest ->]]. eauto.
    + intros [rest [= <- ->]]. eauto.
Qed.

Lemma includes_cons needle c s :
  includes needle (c :: s) = startsWith needle (c :: s) || includes needle s.
Proof. done. Qed.

Lemma includes_app_false needle s t :
  includes needle (s ++ t) = false → includes needle t = false.
Proof.
  induction s as [|c s IH]; [done|]. simpl app. rewrite includes_cons.
  intros [_ ?]%orb_false_iff. auto.
Qed.

Lemma JSON_parse_throws s e : JSON_parse s = Throw e → e = SyntaxError.
Proof. unfold JSON_parse. repeat case_match; congruence. Qed.
End strings.

(** *** The fuel of the parser *)

Lemma skip_ws_length s : length (skip_ws s) ≤ length s.
Proof.
  induction s as [|c s IH]; simpl; [done|]. destruct (is_ws c); simpl; lia.
Qed.

Lemma parse_chars_length s str rest :
  parse_chars s = Parsed str rest → length rest < length s.
Proof.
  revert str rest. induction s as [s IH] using (induction_ltof1 _ length).
  unfold ltof in IH. intros str rest.
  destruct s as [|c s1]; [done|]. cbn [parse_chars]. intros H.
  repeat (case_match; try done); simplify_eq; use_IH IH; simpl in *; lia.
Qed.

Lemma parse_chars_fuel s : parse_chars s ≠ OutOfFuel.
Proof.
  induction s as [s IH] using (induction_ltof1 _ length).
  unfold ltof in IH.
  destruct s as [|c s1]; [done|]. cbn [parse_chars]. intros H.
  repeat (case_match; try done); simplify_eq;
    match goal with
    | H : parse_chars ?x = OutOfFuel |- _ => by apply IH in H; [|simpl; lia]
    end.
Qed.

Lemma digits_length acc count s m k rest :
  digits acc count s = (m, k, rest) → length rest ≤ length s.
Proof.
  revert acc count. induction s as [|c s IH]; intros acc count; simpl.
  - intros [= <- <- <-]. simpl. lia.
  - destruct (is_digit c).
    + intros H%IH. lia.
    + intros [= <- <- <-]. simpl. lia.
Qed.

Lemma digits_head acc count c s m k rest :
  negb (is_digit c) = false →
  digits acc count (c :: s) = (m, k, rest) → length rest ≤ length s.
Proof.
  intros Hd%negb_false_iff. simpl. rewrite Hd. apply digits_length.
Qed.

Lemma parse_number_length s n rest :
  parse_number s = Parsed n rest → length rest < length s.
Proof.
  unfold parse_number. intros H.
  repeat (case_match; try done); simplify_eq;
    repeat match goal with
           | H : digits _ _ (?c :: _) = _, Hd : negb (is_digit ?c) = false |- _ =>
               apply (digits_head _ _ _ _ _ _ _ Hd) in H
           | H : digits _ _ _ = _ |- _ => apply digits_length in H
           end;
    simpl in *; lia.
Qed.

Lemma parse_number_fuel s : parse_number s ≠ OutOfFuel.
Proof. unfold parse_number. intros H. repeat (case_match; try done). Qed.

Lemma startsWith_length pre s :
  startsWith pre s = true → length pre ≤ length s.
Proof.
  revert s. induction pre as [|a pre IH]; intros [|b s]; simpl;
    try done; try lia.
  intros [_ ?%IH]%andb_true_iff. lia.
Qed.

(** The lengths that the hypotheses of the goal give. *)
Ltac use_lengths IHv IHe IHm :=
  repeat match goal with
         | H : skip_ws _ = _ |- _ => apply (f_equal length) in H
         | H : parse_value _ _ = Parsed _ _ |- _ => apply IHv in H
         | H : parse_members _ _ = Parsed _ _ |- _ => apply IHm in H
         | H : parse_elements _ _ = Parsed _ _ |- _ => apply IHe in H
         | H : parse_chars _ = Parsed _ _ |- _ => apply parse_chars_length in H
         | H : parse_number _ = Parsed _ _ |- _ => apply parse_number_length in H
         | H : startsWith _ _ = true |- _ => apply startsWith_length in H
         | |- context [skip_ws ?x] => pose proof (skip_ws_length x)
         | H : context [skip_ws ?x] |- _ =>
             lazymatch goal with
             | _ : length (skip_ws x) ≤ _ |- _ => fail
             | _ => pose proof (skip_ws_length x)
             end
         end.

(** What the parsers of the three kinds leave is shorter than what they
    were given. *)
Lemma parse_length fuel :
  (∀ s v rest, parse_value fuel s = Parsed v rest → length rest < length s) ∧
  (∀ s vs rest, parse_elements fuel s = Parsed vs rest →
                length rest < length s) ∧
  (∀ s ms rest, parse_members fuel s = Parsed ms rest →
                length rest < length s).
Proof.
  induction fuel as [|fuel (IHv & IHe & IHm)]; [done|].
  split_and!; intros s ? rest; cbn [parse_value parse_elements parse_members];
    intros H; pose proof (skip_ws_length s);
    repeat (case_match; try done); simplify_eq;
    use_lengths IHv IHe IHm; rewrite ?length_drop; simpl in *; lia.
Qed.

(** Fuel above twice the length of the text is enough for a value, and
    one more for elements and members. *)
Lemma parse_fuel fuel :
  (∀ s, 2 * length s < fuel → parse_value fuel s ≠ OutOfFuel) ∧
  (∀ s, 2 * length s + 1 < fuel → parse_elements fuel s ≠ OutOfFuel) ∧
  (∀ s, 2 * length s + 1 < fuel → parse_members fuel s ≠ OutOfFuel).
Proof.
  induction fuel as [|fuel (IHv & IHe & IHm)]; [split_and!; intros; lia|].
  destruct (parse_length fuel) as (Lv & Le & Lm).
  split_and!; intros s Hs; cbn [parse_value parse_elements parse_members];
    intros H; pose proof (skip_ws_length s);
    repeat (case_match; try done); simplify_eq;
    repeat match goal with
           | H : parse_chars _ = OutOfFuel |- _ => by apply parse_chars_fuel in H
           | H : parse_number _ = OutOfFuel |- _ => by apply parse_number_fuel in H
           end;
    use_lengths Lv Le Lm;
    match goal with
    | H : parse_value _ _ = OutOfFuel |- _ => apply IHv in H; [done|]
    | H : parse_elements _ _ = OutOfFuel |- _ => apply IHe in H; [done|]
    | H : parse_members _ _ = OutOfFuel |- _ => apply IHm in H; [done|]
    end; simpl in *; lia.
Qed.

(** [JSON_parse] never lacks fuel. *)
Lemma parse_value_fuel text :
  parse_value (S (2 * length text)) text ≠ OutOfFuel.
Proof. apply parse_fuel. lia. Qed.

(** *** Quoting and reading a string *)

Local Open Scope N_scope.

Lemma hex_digit_hex_char d : d < 16 → hex_digit (hex_char d) = Some d.
Proof.
  intros H. unfold hex_digit, hex_char.
  destruct (d <? 10) eqn:Hd; [apply N.ltb_lt in Hd|apply N.ltb_ge in Hd].
  - replace ((48 <=? 48 + d) && (48 + d <=? 57)) with true
      by (symmetry; apply andb_true_iff; split; apply N.leb_le; lia).
    f_equal. lia.
  - replace ((48 <=? 87 + d) && (87 + d <=? 57)) with false
      by (symmetry; apply andb_false_iff; right; apply N.leb_gt; lia).
    replace ((65 <=? 87 + d) && (87 + d <=? 70)) with false
      by (symmetry; apply andb_false_iff; right; apply N.leb_gt; lia).
    replace ((97 <=? 87 + d) && (87 + d <=? 102)) with true
      by (symmetry; apply andb_true_iff; split; apply N.leb_le; lia).
    f_equal. lia.
Qed.

Lemma hex_recompose c :
  c < 65536 →
  ((c / 4096 mod 16 * 16 + c / 256 mod 16) * 16 + c / 16 mod 16) * 16 + c mod 16 = c.
Proof.
  intros H.
  pose proof (N.Div0.div_mod c 16) as H0.
  pose proof (N.Div0.div_mod (c / 16) 16) as H1.
  pose proof (N.Div0.div_mod (c / 16 / 16) 16) as H2.
  pose proof (N.Div0.div_mod (c / 16 / 16 / 16) 16) as H3.
  assert (c / 16 / 16 / 16 / 16 = 0) as H4.
  { rewrite !N.Div0.div_div. apply N.div_small. done. }
  rewrite H4 in H3.
  rewrite !N.Div0.div_div in *.
  change (16 * 16) with 256 in *. change (16 * 256) with 4096 in *.
  change (256 * 16) with 4096 in *. lia.
Qed.

Lemma parse_unicode_escape c rest :
  c < 65536 →
  parse_chars (unicode_escape c ++ rest)
  = match parse_chars rest with
    | Parsed str r => Parsed (c :: str) r
    | other => other
    end.
Proof.
  intros H. unfold unicode_escape. cbn [app parse_chars].
  change (backslash =? quote) with false.
  change (backslash =? backslash) with true.
  change (ch "u" =? ch "u") with true. cbv iota.
  rewrite !hex_digit_hex_char by (apply N.mod_upper_bound; lia).
  rewrite hex_recompose by done. by destruct (parse_chars rest).
Qed.

Lemma parse_quote_code_unit c rest :
  c < 65536 →
  parse_chars (quote_code_unit c ++ rest)
  = match parse_chars rest with
    | Parsed str r => Parsed (c :: str) r
    | other => other
    end.
Proof.
  intros H. unfold quote_code_unit.
  repeat (case_match; [match goal with
         | H : (_ =? _) = true |- _ => apply N.eqb_eq in H; subst
         end; cbn; by destruct (parse_chars rest)|]).
  case_match; [by apply parse_unicode_escape|].
  cbn [app parse_chars].
  repeat match goal with
         | H : _ || _ = false |- _ => apply orb_false_iff in H as [H ?]
         end.
  repeat match goal with
         | H : (_ =? _) = false |- _ => rewrite H; clear H
         | H : (_ <? _) = false |- _ => rewrite H; clear H
         end.
  by destruct (parse_chars rest).
Qed.

Lemma parse_quote_chars s rest :
  well_formed s →
  parse_chars (quote_chars s ++ quote :: rest) = Parsed s rest.
Proof.
  induction s as [s IH] using (induction_ltof1 _ length).
  unfold ltof in IH. intros Hs.
  destruct s as [|c s1]; [done|].
  apply Forall_cons in Hs as [Hc Hs1].
  cbn [quote_chars]. destruct (is_high_surrogate c) eqn:Hh.
  - destruct s1 as [|d s2].
    + rewrite parse_unicode_escape by done. done.
    + destruct (is_low_surrogate d) eqn:Hl.
      * apply Forall_cons in Hs1 as [Hd Hs2].
        cbn [app parse_chars].
        unfold is_high_surrogate, is_low_surrogate in *.
        apply andb_true_iff in Hh as [?%N.leb_le ?%N.leb_le].
        apply andb_true_iff in Hl as [?%N.leb_le ?%N.leb_le].
        repeat match goal with
               | |- context [?a =? ?b] =>
                   replace (a =? b) with false
                     by (symmetry; apply N.eqb_neq; unfold quote, backslash; lia)
               | |- context [?a <? ?b] =>
                   replace (a <? b) with false by (symmetry; apply N.ltb_ge; lia)
               end.
        rewrite (IH s2); [done|simpl; lia|done].
      * rewrite <- (assoc_L (++)), parse_unicode_escape by done.
        rewrite (IH (d :: s2)); [done|simpl; lia|done].
  - rewrite <- (assoc_L (++)), parse_quote_code_unit by done.
    rewrite (IH s1); [done|simpl; lia|done].
Qed.

Lemma parse_value_string fuel s str rest :
  parse_chars s = Parsed str rest →
  parse_value (S fuel) (quote :: s) = Parsed (JString str) rest.
Proof.
  intros H. cbn [parse_value skip_ws]. decide_tests. by rewrite H.
Qed.

Lemma parse_members_last fuel s key s2 v rest :
  parse_chars s = Parsed key (ch ":" :: s2) →
  parse_value fuel s2 = Parsed v (ch "}" :: rest) →
  parse_members (S fuel) (quote :: s) = Parsed [(key, v)] rest.
Proof.
  intros Hk Hv. cbn [parse_members skip_ws]. decide_tests.
  rewrite Hk. cbn [skip_ws]. decide_tests.
  rewrite Hv. cbn [skip_ws]. decide_tests. done.
Qed.

Lemma parse_members_more fuel s key s2 v s3 ms rest :
  parse_chars s = Parsed key (ch ":" :: s2) →
  parse_value fuel s2 = Parsed v (ch "," :: s3) →
  parse_members fuel s3 = Parsed ms rest →
  parse_members (S fuel) (quote :: s) = Parsed ((key, v) :: ms) rest.
Proof.
  intros Hk Hv Hm. cbn [parse_members skip_ws]. decide_tests.
  rewrite Hk. cbn [skip_ws]. decide_tests.
  rewrite Hv. cbn [skip_ws]. decide_tests. by rewrite Hm.
Qed.

Lemma parse_value_object fuel s ms rest :
  parse_members fuel (quote :: s) = Parsed ms rest →
  parse_value (S fuel) (ch "{" :: quote :: s) = Parsed (JObject ms) rest.
Proof.
  intros Hm. cbn [parse_value skip_ws].
  decide_tests. by rewrite Hm.
Qed.

Lemma well_formed_js x : well_formed (js x).
Proof.
  unfold well_formed, js. apply Forall_fmap, Forall_true. intros a.
  unfold ch. simpl. destruct a as [[] [] [] [] [] [] [] []]; by vm_compute.
Qed.

Lemma decode_no_percent s :
  Forall (λ c, c ≠ ch "%") s → decodeURIComponent s = Ok s.
Proof.
  intros H. unfold decodeURIComponent.
  assert (uri_tokens s = Ok (Lit <$> s)) as ->.
  { induction H as [|c s Hc _ IH]; [done|]. cbn [uri_tokens].
    apply N.eqb_neq in Hc. rewrite Hc, IH. done. }
  cbn. induction s as [|c s IH]; [done|].
  apply Forall_cons in H as [_ H]. cbn [fmap list_fmap uri_decode].
  by rewrite (IH H).
Qed.

Lemma hex_char_quoting d : quoting (hex_char d) ∨ 117 < hex_char d.
Proof.
  unfold hex_char, quoting. destruct (d <? 10) eqn:H.
  - apply N.ltb_lt in H. lia.
  - apply N.ltb_ge in H. lia.
Qed.

Lemma quote_chars_keeps x s :
  x = ch "%" ∨ x = ch ";" →
  Forall (λ c, c ≠ x) s → Forall (λ c, c ≠ x) (quote_chars s).
Proof.
  intros Hx.
  assert (x = 37 ∨ x = 59) as Hn
    by (destruct Hx as [-> | ->]; [left|right]; reflexivity).
  clear Hx.
  assert (∀ c, Forall (λ c, c ≠ x) (unicode_escape c)) as Hu.
  { intros c. unfold unicode_escape.
    repeat constructor;
      try (destruct Hn as [-> | ->]; by vm_compute);
      match goal with |- hex_char ?d ≠ _ =>
        pose proof (hex_char_quoting d) as Hq;
        unfold quoting, quote, backslash in Hq; lia
      end. }
  induction s as [s IH] using (induction_ltof1 _ length).
  unfold ltof in IH. intros Hs.
  destruct s as [|c s1]; [done|].
  apply Forall_cons in Hs as [Hc Hs1].
  cbn [quote_chars]. destruct (is_high_surrogate c).
  - destruct s1 as [|d s2]; [apply Hu|].
    destruct (is_low_surrogate d).
    + apply Forall_cons in Hs1 as [Hd Hs2].
      do 2 (constructor; [done|]). apply IH; [simpl; lia|done].
    + apply Forall_app. split; [apply Hu|].
      apply IH; [simpl; lia|done].
  - apply Forall_app. split; [|apply IH; [simpl; lia|done]].
    unfold quote_code_unit.
    repeat case_match; try apply Hu;
      repeat constructor; try done;
      destruct Hn as [-> | ->]; by vm_compute.
Qed.

End JSFacts.

Import JSFacts.

(** ** The route guard *)

Module MiddlewareFacts.
Import Middleware Guard.

Section guard.
Implicit Types request : Request.

Lemma getUser_absent p :
  getUser {| pathname := p; user_cookie := None |} = (JNull, []).
Proof. done. Qed.

Lemma getUser_malformed p cookie :
  malformed cookie →
  (getUser {| pathname := p; user_cookie := Some cookie |}).1 = JNull.
Proof.
  intros [error H]. unfold getUser. simpl.
  destruct cookie as [|c cookie]; [done|].
  unfold mbind, result_bind in *.
  destruct (decodeURIComponent (c :: cookie)) as [text|e]; simpl; [|done].
  by destruct (JSON_parse text).
Qed.

Lemma getUser_parsed p cookie user :
  decodeURIComponent cookie ≫= JSON_parse = Ok user →
  getUser {| pathname := p; user_cookie := Some cookie |} = (user, []).
Proof.
  intros H. unfold getUser. simpl.
  destruct cookie as [|c cookie]; [by vm_compute in H|].
  unfold mbind, result_bind in *.
  destruct (decodeURIComponent (c :: cookie)) as [text|e]; simpl; [|done].
  destruct (JSON_parse text); [|done]. by injection H as ->.
Qed.

(** A cookie that is not empty and malformed is logged once. *)
Lemma getUser_logs_error p cookie :
  malformed cookie → cookie ≠ [] →
  ∃ error,
    getUser {| pathname := p; user_cookie := Some cookie |}
    = (JNull, [console_error (js "Invalid user cookie:") error]).
Proof.
  intros [error H] Hne. unfold getUser. simpl.
  destruct cookie as [|c cookie]; [done|].
  unfold mbind, result_bind in *.
  destruct (decodeURIComponent (c :: cookie)) as [text|e]; simpl; [|by eauto].
  destruct (JSON_parse text); [done|by eauto].
Qed.

Lemma absent_no_session p :
  no_session {| pathname := p; user_cookie := None |}.
Proof. done. Qed.

Lemma malformed_no_session p cookie :
  malformed cookie →
  no_session {| pathname := p; user_cookie := Some cookie |}.
Proof.
  intros H. unfold no_session, session. by rewrite getUser_malformed.
Qed.

(** [middleware] answers [next] for a bypassed path and [decision]
    otherwise. *)
Lemma middleware_decision request :
  response (middleware request)
  = if bypassed (pathname request) then next
    else decision (pathname request) (session request).
Proof.
  unfold middleware, session, decision. destruct (bypassed _); [done|].
  destruct (getUser request) as [user log]. cbv zeta. cbn [fst].
  case_tests; reflexivity.
Qed.

Lemma not_bypassed p :
  startsWith (js "/_next") p = false → startsWith (js "/api") p = false →
  includes (js ".") p = false → bypassed p = false.
Proof. unfold bypassed. by intros -> -> ->. Qed.

(** A value with a role that is a string is an object, hence truthy. *)
Lemma is_string_role_truthy user role :
  is_string (get user (js "role")) role = true → truthy user = true.
Proof. by destruct user. Qed.

Lemma is_string_inj x s t :
  is_string x s = true → is_string x t = true → s = t.
Proof.
  destruct x as [[]|]; simpl; try done.
  intros ->%str_eqb_eq ->%str_eqb_eq. done.
Qed.

(** The routes of parents, and the dashboard of children, are not
    public and do not begin like the static files or the API. *)
Lemma is_parent_only_cases p :
  is_parent_only p = true →
  ∃ route, route ∈ parentOnlyRoutes ∧
           (p = route ∨ ∃ rest, p = route ++ js "/" ++ rest).
Proof.
  unfold is_parent_only. rewrite existsb_exists.
  intros (route & Hin%list_elem_of_In & H). exists route. split; [done|].
  apply orb_true_iff in H as [->%str_eqb_eq | (rest & ->)%startsWith_app].
  - by left.
  - right. exists rest. by rewrite <- (assoc_L (++)).
Qed.

Lemma parent_only_not_public p :
  is_parent_only p = true →
  is_public p = false ∧
  startsWith (js "/_next") p = false ∧ startsWith (js "/api") p = false.
Proof.
  intros (route & Hin & H)%is_parent_only_cases.
  unfold parentOnlyRoutes in Hin.
  repeat (apply elem_of_cons in Hin as [->|Hin]);
    [..|by apply elem_of_nil in Hin];
    (destruct H as [->|(rest & ->)]; done).
Qed.

Lemma kid_dashboard_not_public p :
  p = js "/kid-dashboard" ∨ startsWith (js "/kid-dashboard/") p = true →
  is_public p = false ∧
  startsWith (js "/_next") p = false ∧ startsWith (js "/api") p = false.
Proof. intros [->| (rest & ->)%startsWith_app]; done. Qed.

(** The answers of [decision] that the claims are about. *)
Lemma decision_no_session p user :
  is_public p = false → truthy user = false →
  decision p user = redirect (js "/login").
Proof. unfold decision. by intros -> ->. Qed.

Lemma decision_child p user :
  is_parent_only p = true →
  is_string (get user (js "role")) (js "child") = true →
  decision p user = redirect (js "/").
Proof.
  intros Hp Hrole. destruct (parent_only_not_public _ Hp) as (Hpub & _).
  unfold decision.
  rewrite Hpub, (is_string_role_truthy _ _ Hrole), Hrole, Hp. cbn [negb].
  destruct (is_string _ (js "parent")) eqn:Hparent; [|done].
  pose proof (is_string_inj _ _ _ Hrole Hparent) as Heq.
  vm_compute in Heq. discriminate.
Qed.

Lemma decision_parent p user :
  p = js "/kid-dashboard" ∨ startsWith (js "/kid-dashboard/") p = true →
  is_string (get user (js "role")) (js "parent") = true →
  decision p user = redirect (js "/dashboard").
Proof.
  intros Hp Hrole. destruct (kid_dashboard_not_public _ Hp) as (Hpub & _).
  unfold decision.
  rewrite Hpub, (is_string_role_truthy _ _ Hrole), Hrole. cbn [negb].
  destruct Hp as [->| ->]; [done|]. by rewrite orb_true_r.
Qed.

Lemma decision_never_to_kid_dashboard p user :
  decision p user ≠ redirect (js "/kid-dashboard").
Proof.
  unfold decision.
  case_tests; intros [= H]; vm_compute in H; discriminate.
Qed.

(** C3, as the code has it: a request without a session whose path is
    neither bypassed (it does not begin with [/_next] or [/api] and
    holds no dot) nor public is redirected to [/login]. *)
Theorem unauthenticated_redirected_to_login request :
  bypassed (pathname request) = false →
  is_public (pathname request) = false →
  no_session request →
  response (middleware request) = redirect (js "/login").
Proof.
  intros Hb Hp Hs. rewrite middleware_decision, Hb.
  by apply decision_no_session.
Qed.

(** C9: a cookie that is present but does not decode or parse gives
    the null user, and the answer of the guard is the one it gives
    without any cookie; [middleware] is a total function, the error
    ends in the handler of [getUser]. *)
Theorem malformed_cookie_as_no_cookie p cookie :
  malformed cookie →
  session {| pathname := p; user_cookie := Some cookie |} = JNull ∧
  response (middleware {| pathname := p; user_cookie := Some cookie |})
  = response (middleware {| pathname := p; user_cookie := None |}).
Proof.
  intros H. pose proof (getUser_malformed p cookie H) as Hu. split; [done|].
  rewrite !middleware_decision. unfold session.
  by rewrite Hu, getUser_absent.
Qed.

(** The guard never answers with a redirect to [/kid-dashboard]. *)
Lemma never_to_kid_dashboard request :
  response (middleware request) ≠ redirect (js "/kid-dashboard").
Proof.
  rewrite middleware_decision. destruct (bypassed _); [done|].
  apply decision_never_to_kid_dashboard.
Qed.

(** C5, as the code has it: a request with a child session for a
    route of parents, exact or followed by a slash, whose path holds
    no dot, is redirected to [/]; and whatever the path, a request with
    that cookie is not redirected to [/kid-dashboard]. *)
Theorem child_redirected_home request :
  is_parent_only (pathname request) = true →
  includes (js ".") (pathname request) = false →
  has_role request (js "child") →
  response (middleware request) = redirect (js "/") ∧
  ∀ p, response (middleware {| pathname := p;
                               user_cookie := user_cookie request |})
       ≠ redirect (js "/kid-dashboard").
Proof.
  intros Hp Hdot Hrole. split; [|intros p; apply never_to_kid_dashboard].
  destruct (parent_only_not_public _ Hp) as (_ & Hnext & Hapi).
  rewrite middleware_decision, not_bypassed by done.
  by apply decision_child.
Qed.

(** C6, as the code has it: a request with a parent session for
    [/kid-dashboard], or for a path under [/kid-dashboard/] that holds
    no dot, is redirected to [/dashboard]. *)
Theorem parent_redirected_to_dashboard request :
  pathname request = js "/kid-dashboard" ∨
    startsWith (js "/kid-dashboard/") (pathname request) = true →
  includes (js ".") (pathname request) = false →
  has_role request (js "parent") →
  response (middleware request) = redirect (js "/dashboard").
Proof.
  intros Hp Hdot Hrole.
  destruct (kid_dashboard_not_public _ Hp) as (_ & Hnext & Hapi).
  rewrite middleware_decision, not_bypassed by done.
  by apply decision_parent.
Qed.
End guard.

(** C3 as stated fails: [/logo.png] is not a public route and the
    request carries no cookie, the framework hands it to the guard, and
    the guard lets it pass. *)
Lemma static_path_without_session_passes :
  let request := {| pathname := js "/logo.png"; user_cookie := None |} in
  matcher (pathname request) = true ∧
  is_public (pathname request) = false ∧
  no_session request ∧
  response (middleware request) = next ∧
  response (middleware request) ≠ redirect (js "/login").
Proof. by vm_compute. Qed.

Lemma unauthenticated_redirected_to_login_witness :
  response (middleware {| pathname := js "/dashboard"; user_cookie := None |})
  = redirect (js "/login").
Proof.
  apply unauthenticated_redirected_to_login; by vm_compute.
Defined.

Lemma malformed_cookie_as_no_cookie_witness :
  session {| pathname := js "/dashboard"; user_cookie := Some (js "50%off") |}
  = JNull ∧
  response (middleware {| pathname := js "/dashboard";
                          user_cookie := Some (js "50%off") |})
  = response (middleware {| pathname := js "/dashboard"; user_cookie := None |}).
Proof.
  apply malformed_cookie_as_no_cookie. exists URIError. by vm_compute.
Defined.

(** C5 as stated fails: [/dashboard/report.pdf] is under a route of
    parents and the session is that of a child, and the guard lets the
    request pass. *)
Lemma child_on_dotted_parent_path_passes :
  let request := {| pathname := js "/dashboard/report.pdf";
                    user_cookie := Some child_cookie |} in
  matcher (pathname request) = true ∧
  is_parent_only (pathname request) = true ∧
  has_role request (js "child") ∧
  response (middleware request) = next ∧
  response (middleware request) ≠ redirect (js "/").
Proof. by vm_compute. Qed.

Lemma child_redirected_home_witness :
  let request := {| pathname := js "/my-stories/42";
                    user_cookie := Some child_cookie |} in
  response (middleware request) = redirect (js "/") ∧
  ∀ p, response (middleware {| pathname := p;
                               user_cookie := user_cookie request |})
       ≠ redirect (js "/kid-dashboard").
Proof.
  apply child_redirected_home; by vm_compute.
Defined.

(** C6 as stated fails: [/kid-dashboard/v1.2] is under
    [/kid-dashboard/] and the session is that of a parent, and the guard
    lets the request pass. *)
Lemma parent_on_dotted_kid_path_passes :
  let request := {| pathname := js "/kid-dashboard/v1.2";
                    user_cookie := Some parent_cookie |} in
  matcher (pathname request) = true ∧
  startsWith (js "/kid-dashboard/") (pathname request) = true ∧
  has_role request (js "parent") ∧
  response (middleware request) = next ∧
  response (middleware request) ≠ redirect (js "/dashboard").
Proof. by vm_compute. Qed.

Lemma parent_redirected_to_dashboard_witness :
  response (middleware {| pathname := js "/kid-dashboard/games";
                          user_cookie := Some parent_cookie |})
  = redirect (js "/dashboard").
Proof.
  apply parent_redirected_to_dashboard; [right| |]; by vm_compute.
Defined.

(** The guard on some requests. *)
Example child_on_parent_route :
  middleware {| pathname := js "/dashboard/x"; user_cookie := Some child_cookie |}
  = {| response := redirect (js "/"); console := [] |}.
Proof. vm_compute. reflexivity. Qed.

Example child_with_encoded_cookie :
  middleware {| pathname := js "/dashboard/x";
                user_cookie := Some (js "%7B%22role%22%3A%22child%22%7D") |}
  = {| response := redirect (js "/"); console := [] |}.
Proof. vm_compute. reflexivity. Qed.

Example truncated_cookie :
  middleware {| pathname := js "/dashboard/x";
                user_cookie := Some (js "%7B%22role%22%3A%22child%22%7") |}
  = {| response := redirect (js "/login");
       console := [console_error (js "Invalid user cookie:") URIError] |}.
Proof. vm_compute. reflexivity. Qed.

Example logged_in_on_login :
  response (middleware {| pathname := js "/login";
                          user_cookie := Some parent_cookie |})
  = redirect (js "/dashboard") ∧
  response (middleware {| pathname := js "/register";
                          user_cookie := Some child_cookie |})
  = redirect (js "/") ∧
  response (middleware {| pathname := js "/about/team";
                          user_cookie := None |})
  = next.
Proof. vm_compute. split_and!; reflexivity. Qed.

(** A cookie that parses to a number is a session without a role. *)
Example number_cookie :
  response (middleware {| pathname := js "/dashboard";
                          user_cookie := Some (js "1") |}) = next ∧
  response (middleware {| pathname := js "/dashboard";
                          user_cookie := Some (js "0") |})
  = redirect (js "/login").
Proof. vm_compute. split_and!; reflexivity. Qed.

End MiddlewareFacts.

(** ** The route guard, second copy *)

Module MiddlewareCopyFacts.
Import Middleware Guard MiddlewareFacts.

(** The second copy answers [next] for a bypassed path and [decision]
    otherwise: the two copies differ in [getUser] and in the console
    only. *)
Lemma copy_decision request :
  response (MiddlewareCopy.middleware request)
  = if bypassed (pathname request) then next
    else decision (pathname request) (session_copy request).
Proof.
  unfold MiddlewareCopy.middleware, session_copy, decision, bypassed,
    is_public, is_parent_only.
  change MiddlewareCopy.publicRoutes with publicRoutes.
  change MiddlewareCopy.parentOnlyRoutes with parentOnlyRoutes.
  destruct (_ || _ || _); [done|].
  destruct (MiddlewareCopy.getUser request) as [user log]. cbv zeta.
  cbn [fst]. case_tests; reflexivity.
Qed.

Lemma copy_getUser_malformed p cookie :
  malformed_copy cookie →
  session_copy {| pathname := p; user_cookie := Some cookie |} = JNull.
Proof.
  intros [error H]. unfold session_copy, MiddlewareCopy.getUser. simpl.
  destruct cookie as [|c cookie]; [done|].
  unfold mbind, result_bind. by rewrite H.
Qed.

Lemma copy_no_session_to_login request :
  bypassed (pathname request) = false →
  is_public (pathname request) = false →
  truthy (session_copy request) = false →
  response (MiddlewareCopy.middleware request) = redirect (js "/login").
Proof.
  intros Hb Hp Hs. rewrite copy_decision, Hb. by apply decision_no_session.
Qed.

Lemma copy_malformed_as_absent p cookie :
  malformed_copy cookie →
  response (MiddlewareCopy.middleware
              {| pathname := p; user_cookie := Some cookie |})
  = response (MiddlewareCopy.middleware
                {| pathname := p; user_cookie := None |}).
Proof.
  intros H. rewrite !copy_decision.
  by rewrite (copy_getUser_malformed p cookie H).
Qed.

Lemma copy_child_sent_home request :
  is_parent_only (pathname request) = true →
  includes (js ".") (pathname request) = false →
  is_string (get (session_copy request) (js "role")) (js "child") = true →
  response (MiddlewareCopy.middleware request) = redirect (js "/").
Proof.
  intros Hp Hdot Hrole.
  destruct (parent_only_not_public _ Hp) as (_ & Hnext & Hapi).
  rewrite copy_decision, not_bypassed by done. by apply decision_child.
Qed.

Lemma copy_never_to_kid_dashboard request :
  response (MiddlewareCopy.middleware request) ≠ redirect (js "/kid-dashboard").
Proof.
  rewrite copy_decision. destruct (bypassed _); [done|].
  apply decision_never_to_kid_dashboard.
Qed.

Lemma copy_parent_sent_to_dashboard request :
  pathname request = js "/kid-dashboard" ∨
    startsWith (js "/kid-dashboard/") (pathname request) = true →
  includes (js ".") (pathname request) = false →
  is_string (get (session_copy request) (js "role")) (js "parent") = true →
  response (MiddlewareCopy.middleware request) = redirect (js "/dashboard").
Proof.
  intros Hp Hdot Hrole.
  destruct (kid_dashboard_not_public _ Hp) as (_ & Hnext & Hapi).
  rewrite copy_decision, not_bypassed by done. by apply decision_parent.
Qed.

(** The second copy lets the same three requests pass, and logs the
    redirect of a child. *)
Example copy_dotted_paths_pass :
  response (MiddlewareCopy.middleware
              {| pathname := js "/logo.png"; user_cookie := None |}) = next ∧
  response (MiddlewareCopy.middleware
              {| pathname := js "/dashboard/report.pdf";
                 user_cookie := Some child_cookie |}) = next ∧
  response (MiddlewareCopy.middleware
              {| pathname := js "/kid-dashboard/v1.2";
                 user_cookie := Some parent_cookie |}) = next.
Proof. vm_compute. split_and!; reflexivity. Qed.

Example copy_child_on_parent_route :
  MiddlewareCopy.middleware
    {| pathname := js "/settings"; user_cookie := Some child_cookie |}
  = {| response := redirect (js "/");
       console := [console_log MiddlewareCopy.redirecting_child] |}.
Proof. vm_compute. reflexivity. Qed.

End MiddlewareCopyFacts.

(** ** The session guard *)

Module AuthContextFacts.
Import AuthContext Session.

Local Open Scope Z_scope.

Section invariant.
Implicit Types s : State.

Lemma clearTimeout_same t :
  filter (λ t', timer_id t' ≠ timer_id t) [t] = [].
Proof. rewrite filter_cons. by case_decide. Qed.

Lemma clearIdleTimers_fields s :
  user (clearIdleTimers s) = user s ∧
  showIdleWarning (clearIdleTimers s) = showIdleWarning s ∧
  idleTimerRef (clearIdleTimers s) = idleTimerRef s ∧
  warningTimerRef (clearIdleTimers s) = warningTimerRef s ∧
  next_timer_id (clearIdleTimers s) = next_timer_id s ∧
  cookies (clearIdleTimers s) = cookies s ∧
  pushed (clearIdleTimers s) = pushed s ∧
  console (clearIdleTimers s) = console s ∧
  lastActivityRef (clearIdleTimers s) = lastActivityRef s.
Proof.
  destruct s as [? ? ? [?|] [?|] ? ? ? ? ? ? ? ? ? ?]; done.
Qed.

Lemma clearIdleTimers_timers s :
  Inv s → timers (clearIdleTimers s) = [].
Proof.
  destruct s as [? ? ? [?|] [?|] ? ? ? ? ? ? ? ? ? ?]; unfold Inv; simpl;
    intros [[H _]|[(t & H & _ & Hr & _)|(t & H & _ & Hr & _)]];
    simplify_eq/=; try done;
    rewrite ?filter_cons, ?filter_nil; repeat case_decide; simpl;
    rewrite ?filter_cons, ?filter_nil; repeat case_decide; done.
Qed.

Lemma Inv_held s : Inv s → held s.
Proof.
  intros [[H _]|[(t & H & _ & Hr & _)|(t & H & _ & Hr & _)]] t';
    rewrite H; set_solver.
Qed.

Lemma held_clearIdleTimers s : held s → timers (clearIdleTimers s) = [].
Proof.
  intros H. apply elem_of_nil_inv. intros t.
  unfold clearIdleTimers, clearTimeout.
  destruct s as [? ? ? [i|] [w|] ? ts ? ? ? ? ? ? ? ?]; simpl in *;
    rewrite ?list_elem_of_filter; intros Ht; destruct (H t) as [?|?];
    naive_solver.
Qed.

Lemma clearIdleTimers_held s :
  held s → clearIdleTimers s = set_timers [] (next_timer_id s) s.
Proof.
  intros H. pose proof (held_clearIdleTimers s H) as Ht. revert Ht.
  unfold clearIdleTimers, clearTimeout.
  destruct s as [? ? ? [i|] [w|] ? ts ? ? ? ? ? ? ? ?]; simpl;
    by intros ->.
Qed.

Lemma Inv_resetIdleTimer now s : Inv s → Inv (resetIdleTimer now s).
Proof.
  intros HI. pose proof (Inv_held _ HI) as Hh. unfold resetIdleTimer.
  destruct (user s) eqn:Hu; [|done].
  rewrite clearIdleTimers_held by exact Hh.
  right; left. eexists. simpl. rewrite Hu. done.
Qed.

Lemma user_effect_cleanup_Inv s :
  Inv s → user_effect_cleanup s = set_timers [] (next_timer_id s) s.
Proof.
  intros HI. pose proof (Inv_held _ HI) as Hh. unfold user_effect_cleanup.
  destruct (user s) eqn:Hu; [by apply clearIdleTimers_held|].
  destruct HI as [[? ?]|[(t & _ & _ & _ & _ & H)|(t & _ & _ & _ & _ & H)]];
    [|done..].
  destruct s; simpl in *; by subst.
Qed.

Lemma held_no_timers s : timers s = [] → held s.
Proof. intros H t. rewrite H. set_solver. Qed.

(** The effect for children pushes to the router, or does nothing. *)
Lemma child_effect_cases s :
  child_effect s = s ∨ child_effect s = router_push (js "/") s.
Proof. unfold child_effect. repeat case_match; auto. Qed.

Lemma child_effect_null s : user s = None → child_effect s = s.
Proof. unfold child_effect. by intros ->. Qed.

Lemma child_effect_fields s :
  user (child_effect s) = user s ∧
  showIdleWarning (child_effect s) = showIdleWarning s ∧
  timers (child_effect s) = timers s ∧
  next_timer_id (child_effect s) = next_timer_id s ∧
  cookies (child_effect s) = cookies s ∧
  AuthContext.console (child_effect s) = AuthContext.console s ∧
  written (child_effect s) = written s.
Proof. by destruct (child_effect_cases s) as [-> | ->]. Qed.

Lemma Inv_child_effect s : Inv s → Inv (child_effect s).
Proof. intros H. by destruct (child_effect_cases s) as [-> | ->]. Qed.

Lemma Inv_setUser now u s : Inv s → Inv (setUser now u s).
Proof.
  intros HI. unfold setUser. apply Inv_child_effect.
  rewrite user_effect_cleanup_Inv by done.
  unfold resetIdleTimer. cbn [user set_user]. destruct u as [u|].
  - rewrite clearIdleTimers_held by by apply held_no_timers.
    right; left. eexists. simpl. done.
  - left. done.
Qed.

(** What touches neither the timeouts, the refs, the warning nor the
    user keeps the shape. *)
Lemma Inv_setLoading b s : Inv s → Inv (setLoading b s).
Proof. intros H. exact H. Qed.
Lemma Inv_setDoc id data s : Inv s → Inv (setDoc id data s).
Proof. intros H. exact H. Qed.
Lemma Inv_assign_document_cookie text s :
  Inv s → Inv (assign_document_cookie text s).
Proof. intros H. exact H. Qed.
Lemma Inv_router_push url s : Inv s → Inv (router_push url s).
Proof. intros H. exact H. Qed.
Lemma Inv_console_error label error s :
  Inv s → Inv (console_error_ label error s).
Proof. intros H. exact H. Qed.
Lemma Inv_set_awaiting a l s : Inv s → Inv (set_awaiting a l s).
Proof. intros H. exact H. Qed.

Lemma Inv_showWarning now s :
  timers s = [] → user s ≠ None → Inv (showWarning now s).
Proof. intros Ht Hu. right; right. eexists. simpl. rewrite Ht. done. Qed.

Lemma Inv_handleAutoLogout_begin s : Inv s → Inv (handleAutoLogout_begin s).
Proof.
  intros HI%Inv_held. unfold handleAutoLogout_begin.
  rewrite clearIdleTimers_held by exact HI. by left.
Qed.

Lemma Inv_handleAutoLogout_settle now outcome s :
  Inv s → Inv (handleAutoLogout_settle now outcome s).
Proof.
  intros HI. unfold handleAutoLogout_settle. destruct outcome as [[]|e].
  - by apply Inv_router_push, Inv_setUser, Inv_assign_document_cookie,
      Inv_set_awaiting.
  - by apply Inv_console_error, Inv_set_awaiting.
Qed.

Lemma Inv_logout_begin s : Inv s → Inv (logout_begin s).
Proof.
  intros HI%Inv_held. unfold logout_begin.
  rewrite clearIdleTimers_held by exact HI. by left.
Qed.

Lemma Inv_onAuthStateChanged now authUser userDoc stored s :
  Inv s → Inv (onAuthStateChanged now authUser userDoc stored s).
Proof.
  intros HI. unfold onAuthStateChanged.
  destruct authUser as [a|].
  - destruct userDoc as [[data|]|]; [..|exact HI].
    + by apply Inv_setLoading, Inv_setUser.
    + destruct stored; [|exact HI].
      by apply Inv_setLoading, Inv_setUser, Inv_setDoc.
  - apply Inv_setLoading, Inv_setUser.
    rewrite clearIdleTimers_held by by apply Inv_held.
    by left.
Qed.

Lemma Inv_fire now id s s' : Inv s → fire now id s = Some s' → Inv s'.
Proof.
  intros HI. unfold fire.
  destruct HI as [[H ?]|[(t & H & Hc & Hr & Hw & Hu)|(t & H & Hc & Hr & Hw & Hu)]];
    rewrite H, ?filter_cons, ?filter_nil; [done|..];
    (case_decide; [|done]; subst id; destruct (due t <=? now); [|done];
     intros [= <-]; rewrite Hc).
  - apply Inv_showWarning; [|done]. simpl. rewrite H.
    apply clearTimeout_same.
  - unfold handleAutoLogout_begin. rewrite clearIdleTimers_held; [by left|].
    intros t'. simpl. rewrite H, clearTimeout_same. set_solver.
Qed.

Lemma Inv_handle now ev s s' : Inv s → handle now ev s = Some s' → Inv s'.
Proof.
  intros HI. destruct ev; simpl;
    try (intros [= <-];
         eauto using Inv_onAuthStateChanged, Inv_handleAutoLogout_begin,
           Inv_logout_begin, Inv_resetIdleTimer; fail).
  - (* refreshUser *)
    intros [= <-]. unfold refreshUser.
    destruct currentUser; [|exact HI].
    destruct userDoc as [[?|]|];
      [by apply Inv_setUser|exact HI|by apply Inv_console_error].
  - (* register *)
    intros [= <-]. unfold register.
    destruct (registered ≫= _); exact HI.
  - (* login *)
    intros [= <-]. unfold login. destruct loggedIn; exact HI.
  - (* logout settled *)
    destruct (awaiting_logout s); [done|]. intros [= <-].
    unfold logout_settle. destruct outcome; exact HI.
  - (* automatic logout settled *)
    destruct (awaiting_autoLogout s); [done|]. intros [= <-].
    by apply Inv_handleAutoLogout_settle.
  - (* activity *)
    intros [= <-]. unfold handleUserActivity.
    destruct (user s); [|done].
    destruct (1000 <? _); [by apply Inv_resetIdleTimer|done].
  - by apply Inv_fire.
Qed.

Lemma Inv_initial now jar path : Inv (initial now jar path).
Proof. by left. Qed.

Lemma reachable_Inv s : reachable s → Inv s.
Proof.
  induction 1 as [| s now ev s' _ IH H];
    eauto using Inv_initial, Inv_handle.
Qed.

Lemma reachable_run evs s s' : reachable s → run evs s = Some s' → reachable s'.
Proof.
  revert s. induction evs as [|[now ev] evs IH]; intros s Hs; simpl.
  - by intros [= <-].
  - destruct (handle now ev s) as [s1|] eqn:H; [|done]. simpl.
    apply IH. by eapply reachable_handle.
Qed.

Lemma armed_nil cb s : timers s = [] → armed cb s = false.
Proof. unfold armed. by intros ->. Qed.

Lemma armed_singleton cb t s :
  timers s = [t] → armed cb s = bool_decide (callback t = cb).
Proof. unfold armed. intros ->. simpl. apply orb_false_r. Qed.

(** C4, as the code has it: in every reachable state at most one
    timeout is pending; the logout timer is armed only while the
    warning is visible and the warning timer only while it is hidden,
    each only for a user that is not null; a warning that is visible
    for a user that is not null has the logout timer armed; and when
    the user is null no timer is armed. *)
Theorem timers_exclusive s :
  reachable s →
  (length (timers s) ≤ 1)%nat ∧
  armed ShowWarning s && armed HandleAutoLogout s = false ∧
  (armed HandleAutoLogout s = true → showIdleWarning s = true ∧ user s ≠ None) ∧
  (armed ShowWarning s = true → showIdleWarning s = false ∧ user s ≠ None) ∧
  (showIdleWarning s = true → user s ≠ None → armed HandleAutoLogout s = true) ∧
  (user s = None → timers s = []).
Proof.
  intros [[H ?]|[(t & H & Hc & Hr & Hw & Hu)|(t & H & Hc & Hr & Hw & Hu)]]%reachable_Inv.
  - rewrite !(armed_nil _ _ H), H. naive_solver.
  - rewrite !(armed_singleton _ _ _ H), H, Hc, Hw. simpl.
    split_and!; (done || lia).
  - rewrite !(armed_singleton _ _ _ H), H, Hc, Hw. simpl.
    split_and!; (done || lia).
Qed.
End invariant.

Section callbacks.
Implicit Types s : State.

(** C1, as the code has it: when [logoutUser()] fails in
    [handleAutoLogout], the error is logged, the warning is hidden
    and no timeout stays pending; the cookies, the user and the
    route are as they were. *)
Theorem failed_auto_logout_keeps_session now error s :
  reachable s →
  let s' := handleAutoLogout now (Throw error) s in
  AuthContext.console s' = AuthContext.console s ++ [console_error (js "Logout error:") error] ∧
  showIdleWarning s' = false ∧ timers s' = [] ∧
  cookies s' = cookies s ∧ user s' = user s ∧ pushed s' = pushed s.
Proof.
  intros Hh%reachable_Inv%Inv_held.
  unfold handleAutoLogout, handleAutoLogout_begin, handleAutoLogout_settle.
  rewrite clearIdleTimers_held by exact Hh. done.
Qed.

(** What the stay-logged-in action does for a user that is not
    null. *)
Lemma extendSession_reachable now s :
  reachable s → user s ≠ None →
  let s' := extendSession now s in
  showIdleWarning s' = false ∧
  timers s' = [{| timer_id := next_timer_id s;
                  due := now + (IDLE_TIME - WARNING_TIME);
                  callback := ShowWarning |}] ∧
  warningTimerRef s' = Some (next_timer_id s) ∧
  lastActivityRef s' = now ∧ user s' = user s.
Proof.
  intros Hh%reachable_Inv%Inv_held Hu.
  unfold extendSession, resetIdleTimer.
  destruct (user s) eqn:Hus; [|done].
  rewrite clearIdleTimers_held by exact Hh. simpl. by rewrite Hus.
Qed.

(** C2, as the code has it: while the warning is visible for a user
    that is not null, an activity event more than 1000 ms after the
    last recorded activity does what the stay-logged-in action does,
    which hides the warning, cancels the logout timer and arms the
    warning timer for [IDLE_TIME - WARNING_TIME] from now; an activity
    event within 1000 ms of the last recorded activity changes
    nothing. *)
Theorem activity_dismisses_warning now s :
  reachable s → showIdleWarning s = true → user s ≠ None →
  (1000 < now - lastActivityRef s →
   handleUserActivity now s = extendSession now s) ∧
  (now - lastActivityRef s ≤ 1000 → handleUserActivity now s = s) ∧
  showIdleWarning (extendSession now s) = false ∧
  armed HandleAutoLogout (extendSession now s) = false ∧
  timers (extendSession now s)
  = [{| timer_id := next_timer_id s;
        due := now + (IDLE_TIME - WARNING_TIME);
        callback := ShowWarning |}].
Proof.
  intros Hr Hw Hu.
  destruct (extendSession_reachable now s Hr Hu) as (Hw' & Ht & _).
  split_and!; [| |done|by rewrite (armed_singleton _ _ _ Ht)|done];
    unfold handleUserActivity; destruct (user s); try done;
    intros H; case_match eqn:Hlt; try done.
  - apply Z.ltb_ge in Hlt. lia.
  - apply Z.ltb_lt in Hlt. lia.
Qed.

(** [clearIdleTimers] touches the pending timeouts only. *)
Lemma clearIdleTimers_frame s :
  clearIdleTimers s
  = set_timers (timers (clearIdleTimers s)) (next_timer_id s) s.
Proof. by destruct s as [? ? ? [?|] [?|] ? ? ? ? ? ? ? ? ? ?]. Qed.

Lemma user_effect_cleanup_frame s :
  user_effect_cleanup s
  = set_timers (timers (user_effect_cleanup s)) (next_timer_id s) s.
Proof.
  unfold user_effect_cleanup. destruct (user s).
  - apply clearIdleTimers_frame.
  - by destruct s.
Qed.

(** [setUser] sets the user, and touches neither the cookies, the
    console nor the writes; setting the null user pushes nothing. *)
Lemma setUser_frame now u s :
  user (setUser now u s) = u ∧
  cookies (setUser now u s) = cookies s ∧
  AuthContext.console (setUser now u s) = AuthContext.console s ∧
  written (setUser now u s) = written s ∧
  (u = None → pushed (setUser now u s) = pushed s).
Proof.
  unfold setUser.
  destruct (child_effect_fields
              (resetIdleTimer now (set_user u (user_effect_cleanup s))))
    as (-> & _ & _ & _ & -> & -> & ->).
  split_and!;
    [..|intros ->; unfold resetIdleTimer; cbn [user set_user];
        rewrite child_effect_null by done;
        by rewrite user_effect_cleanup_frame];
    unfold resetIdleTimer; rewrite user_effect_cleanup_frame;
    cbn [user set_user set_timers]; (destruct u as [u|]; [|done]);
    rewrite clearIdleTimers_frame; done.
Qed.

Lemma setLoading_frame b s :
  user (setLoading b s) = user s ∧ written (setLoading b s) = written s.
Proof. done. Qed.

Lemma onAuthStateChanged_missing now a s :
  onAuthStateChanged now (Some a) (Ok None) (Ok ()) s
  = setLoading false
      (setUser now
         (Some (defaultData a ∪ <[js "uid" := Plain (JString (uid a))]> ∅))
         (setDoc (uid a) (defaultData a) s)).
Proof. reflexivity. Qed.

Lemma defaultData_lookup a :
  defaultData a !! js "role" = Some (Plain (JString (js "parent"))) ∧
  defaultData a !! js "familyId" = Some (Plain (JString (uid a))) ∧
  defaultData a !! js "uid" = None.
Proof. by vm_compute. Qed.

Theorem missing_document_gives_parent now a s :
  let s' := onAuthStateChanged now (Some a) (Ok None) (Ok ()) s in
  ∃ profile,
    user s' = Some profile ∧
    profile !! js "role" = Some (Plain (JString (js "parent"))) ∧
    profile !! js "familyId" = Some (Plain (JString (uid a))) ∧
    profile !! js "uid" = Some (Plain (JString (uid a))) ∧
    profile !! js "role" ≠ Some (Plain (JString (js "child"))) ∧
    written s' = written s ++ [{| doc_id := uid a; doc_data := defaultData a;
                                  doc_merge := true |}] ∧
    defaultData a !! js "role" = Some (Plain (JString (js "parent"))) ∧
    defaultData a !! js "familyId" = Some (Plain (JString (uid a))).
Proof.
  cbv zeta. rewrite onAuthStateChanged_missing.
  destruct (setUser_frame now
    (Some (defaultData a ∪ <[js "uid" := Plain (JString (uid a))]> ∅))
    (setDoc (uid a) (defaultData a) s)) as (Hu & _ & _ & Hw & _).
  destruct (defaultData_lookup a) as (Hrole & Hfam & Huid).
  destruct (setLoading_frame false (setUser now
    (Some (defaultData a ∪ <[js "uid" := Plain (JString (uid a))]> ∅))
    (setDoc (uid a) (defaultData a) s))) as (-> & ->).
  rewrite Hu, Hw. eexists. split; [reflexivity|].
  rewrite !lookup_union, Hrole, Hfam, Huid, lookup_insert_eq.
  split_and!; reflexivity || (intros [=]; done).
Qed.

Lemma setUser_Some now u s :
  Inv s →
  setUser now (Some u) s
  = child_effect
      (set_warningTimerRef (Some (next_timer_id s))
         (set_timers [{| timer_id := next_timer_id s;
                         due := now + (IDLE_TIME - WARNING_TIME);
                         callback := ShowWarning |}]
            (N.succ (next_timer_id s))
            (setShowIdleWarning false
               (set_lastActivityRef now (set_user (Some u) s))))).
Proof.
  intros HI. unfold setUser. rewrite user_effect_cleanup_Inv by done.
  unfold resetIdleTimer. cbn [user set_user].
  rewrite clearIdleTimers_held by by apply held_no_timers.
  by destruct s.
Qed.

Lemma clear_user_cookie jar :
  document_cookie_assign (js "user=;Max-Age=0; path=/") jar
  = delete (js "user") jar.
Proof. reflexivity. Qed.

Lemma clearTimeout_timers id s :
  timers (clearTimeout (Some id) s)
  = filter (λ t, timer_id t ≠ id) (timers s).
Proof. done. Qed.

Lemma fire_due_early outcome now w s :
  timers s = [w] → now < due w → fire_due outcome now s = s.
Proof.
  intros Ht H. unfold fire_due, due_timer.
  rewrite Ht, filter_cons, filter_nil. case_decide; [lia|done].
Qed.

Lemma fire_due_singleton outcome now w s :
  timers s = [w] → due w ≤ now →
  fire_due outcome now s
  = match callback w with
    | ShowWarning => showWarning (due w) (clearTimeout (Some (timer_id w)) s)
    | HandleAutoLogout =>
        handleAutoLogout (due w) outcome (clearTimeout (Some (timer_id w)) s)
    end.
Proof.
  intros Ht H. unfold fire_due, due_timer.
  rewrite Ht, filter_cons, filter_nil. case_decide; [done|lia].
Qed.

Lemma showWarning_timers now w s :
  timers s = [w] →
  timers (showWarning now (clearTimeout (Some (timer_id w)) s))
  = [{| timer_id := next_timer_id s; due := now + WARNING_TIME;
        callback := HandleAutoLogout |}].
Proof.
  intros Ht. unfold showWarning.
  cbn [timers setTimeout set_idleTimerRef set_timers clearTimeout
       setShowIdleWarning next_timer_id].
  by rewrite Ht, clearTimeout_same.
Qed.

(** The session from the time [t0] at which its warning timer was
    armed, when nothing but time happens to it. *)
Lemma schedule outcome t0 t id s0 :
  timers s0 = [{| timer_id := id; due := t0 + (IDLE_TIME - WARNING_TIME);
                  callback := ShowWarning |}] →
  let warned := showWarning (t0 + (IDLE_TIME - WARNING_TIME))
                  (clearTimeout (Some id) s0) in
  (t < t0 + (IDLE_TIME - WARNING_TIME) → elapse outcome t s0 = s0) ∧
  (t0 + (IDLE_TIME - WARNING_TIME) ≤ t < t0 + IDLE_TIME →
   elapse outcome t s0 = warned) ∧
  (t0 + IDLE_TIME ≤ t →
   elapse outcome t s0
   = handleAutoLogout (t0 + IDLE_TIME) outcome
       (clearTimeout (Some (next_timer_id s0)) warned)).
Proof.
  intros Ht. cbv zeta. unfold elapse.
  pose proof (showWarning_timers (t0 + (IDLE_TIME - WARNING_TIME)) _ _ Ht)
    as Hw. cbn [timer_id] in Hw.
  split_and!; intros H.
  - by rewrite !(fire_due_early _ _ _ _ Ht).
  - rewrite (fire_due_singleton _ _ _ _ Ht) by (cbn [due]; lia).
    cbn [callback due timer_id].
    by rewrite (fire_due_early _ _ _ _ Hw)
      by (cbn [due]; unfold IDLE_TIME, WARNING_TIME in *; lia).
  - rewrite (fire_due_singleton _ _ _ _ Ht)
      by (cbn [due]; unfold IDLE_TIME, WARNING_TIME in *; lia).
    cbn [callback due timer_id].
    rewrite (fire_due_singleton _ _ _ _ Hw)
      by (cbn [due]; unfold IDLE_TIME, WARNING_TIME in *; lia).
    cbn [callback due timer_id].
    rewrite <- Z.add_assoc, Z.sub_add. done.
Qed.

(** [handleAutoLogout] when [logoutUser()] succeeds. *)
Lemma auto_logout_success now s :
  held s →
  let s' := handleAutoLogout now (Ok ()) s in
  user s' = None ∧ showIdleWarning s' = false ∧ timers s' = [] ∧
  cookies s' !! js "user" = None ∧
  pushed s' = pushed s ++ [js "/login?reason=idle"].
Proof.
  intros Hh. cbv zeta.
  unfold handleAutoLogout, handleAutoLogout_begin, handleAutoLogout_settle.
  rewrite clearIdleTimers_held by exact Hh.
  unfold setUser, resetIdleTimer, user_effect_cleanup.
  cbn [user set_user set_timers set_awaiting assign_document_cookie
       set_cookies setShowIdleWarning].
  destruct (user s).
  - rewrite clearIdleTimers_held by by apply held_no_timers.
    cbn. rewrite clear_user_cookie, lookup_delete_eq. done.
  - cbn. rewrite clear_user_cookie, lookup_delete_eq. done.
Qed.

(** [handleAutoLogout] when [logoutUser()] fails. *)
Lemma auto_logout_failure now error s :
  held s →
  let s' := handleAutoLogout now (Throw error) s in
  AuthContext.console s'
  = AuthContext.console s ++ [console_error (js "Logout error:") error] ∧
  showIdleWarning s' = false ∧ timers s' = [] ∧
  cookies s' = cookies s ∧ user s' = user s ∧ pushed s' = pushed s.
Proof.
  intros Hh.
  unfold handleAutoLogout, handleAutoLogout_begin, handleAutoLogout_settle.
  rewrite clearIdleTimers_held by exact Hh. done.
Qed.

(** C7: from the sign-in at [t0] on, with no activity and no
    dismissal, the warning timer is armed for [IDLE_TIME - WARNING_TIME],
    25 minutes, and the warning is hidden before [t0] and 25 minutes;
    from then on it is visible, the logout timer armed for
    [WARNING_TIME], until [t0] and [IDLE_TIME], 30 minutes; from then
    on the automatic logout has run. *)
Theorem idle_schedule t0 a userDoc outcome t s :
  reachable s →
  let s0 := onAuthStateChanged t0 (Some a) (Ok userDoc) (Ok ()) s in
  let s1 := elapse outcome t s0 in
  (IDLE_TIME - WARNING_TIME = 25 * 60 * 1000 ∧ IDLE_TIME = 30 * 60 * 1000) ∧
  (showIdleWarning s0 = false ∧ user s0 ≠ None ∧
   ∃ id, timers s0 = [{| timer_id := id;
                         due := t0 + (IDLE_TIME - WARNING_TIME);
                         callback := ShowWarning |}]) ∧
  (t < t0 + (IDLE_TIME - WARNING_TIME) → s1 = s0) ∧
  (t0 + (IDLE_TIME - WARNING_TIME) ≤ t < t0 + IDLE_TIME →
   showIdleWarning s1 = true ∧ user s1 = user s0 ∧
   ∃ id, timers s1 = [{| timer_id := id;
                         due := t0 + (IDLE_TIME - WARNING_TIME) + WARNING_TIME;
                         callback := HandleAutoLogout |}]) ∧
  (t0 + IDLE_TIME ≤ t →
   showIdleWarning s1 = false ∧ timers s1 = [] ∧
   match outcome with
   | Ok _ =>
       user s1 = None ∧ cookies s1 !! js "user" = None ∧
       pushed s1 = pushed s0 ++ [js "/login?reason=idle"]
   | Throw error =>
       user s1 = user s0 ∧
       AuthContext.console s1
       = AuthContext.console s0 ++ [console_error (js "Logout error:") error]
   end).
Proof.
  intros HI%reachable_Inv. cbv zeta.
  assert (∃ u s', Inv s' ∧
            onAuthStateChanged t0 (Some a) (Ok userDoc) (Ok ()) s
            = setLoading false (setUser t0 (Some u) s')) as (u & s' & HI' & ->).
  { destruct userDoc as [data|]; eexists _, _; (split; [|reflexivity]);
      [done|by apply Inv_setDoc]. }
  rewrite setUser_Some by done.
  match goal with |- context [child_effect ?x] =>
    destruct (child_effect_fields x) as (Hu & Hv & Ht & _);
    cbn [user showIdleWarning timers set_warningTimerRef set_timers
         setShowIdleWarning set_lastActivityRef set_user] in Hu, Hv, Ht;
    generalize dependent (child_effect x)
  end.
  intros y Hu Hv Ht. set (s0 := setLoading false y).
  assert (timers s0 = [{| timer_id := next_timer_id s';
                          due := t0 + (IDLE_TIME - WARNING_TIME);
                          callback := ShowWarning |}]) as Ht' by exact Ht.
  clear Ht. rename Ht' into Ht.
  destruct (schedule outcome t0 t _ _ Ht) as (H1 & H2 & H3).
  pose proof (showWarning_timers (t0 + (IDLE_TIME - WARNING_TIME)) _ _ Ht)
    as Hw. cbn [timer_id] in Hw.
  split; [done|].
  split; [split_and!; [exact Hv|by unfold s0; cbn; rewrite Hu|by eexists]|].
  split; [done|]. split.
  - intros ->%H2. split; [done|]. split; [done|]. eauto.
  - intros ->%H3.
    set (x := clearTimeout _ (showWarning _ _)).
    assert (held x) as Hh.
    { apply held_no_timers. unfold x.
      rewrite clearTimeout_timers, Hw. apply clearTimeout_same. }
    destruct outcome as [[]|error].
    + destruct (auto_logout_success (t0 + IDLE_TIME) x Hh)
        as (? & ? & ? & ? & ?). done.
    + destruct (auto_logout_failure (t0 + IDLE_TIME) error x Hh)
        as (? & ? & ? & ? & ? & ?). done.
Qed.
End callbacks.

Example signed_in_timers :
  timers signed_in = [{| timer_id := 1; due := 1500000; callback := ShowWarning |}] ∧
  cookies signed_in !! js "user"
  = Some (jsq "{'role':'parent','email':'mum@example.org'}").
Proof. by vm_compute. Qed.

Example warned_timers :
  let s := elapse (Ok ()) 1500000 signed_in in
  showIdleWarning s = true ∧
  timers s = [{| timer_id := 2; due := 1800000; callback := HandleAutoLogout |}].
Proof. by vm_compute. Qed.

Example logged_out :
  let s := elapse (Ok ()) 1800000 signed_in in
  showIdleWarning s = false ∧ timers s = [] ∧ user s = None ∧
  cookies s !! js "user" = None ∧ pushed s = [js "/login?reason=idle"].
Proof. by vm_compute. Qed.

Lemma reachable_signed_in : reachable signed_in.
Proof.
  apply (reachable_run signing_in (initial 0 ∅ (js "/login"))); [constructor|].
  by vm_compute.
Qed.

Lemma reachable_warned : reachable (elapse (Ok ()) 1500000 signed_in).
Proof.
  apply (reachable_run [(1500000, Timeout 1)] signed_in);
    [apply reachable_signed_in|].
  by vm_compute.
Qed.

(** C1 as stated fails: the session is left alone for [IDLE_TIME], the
    logout timer fires and [logoutUser()] fails; the error is logged,
    and the cookie is still there, the user is not null, and nothing was
    pushed to the router. *)
Lemma idle_logout_failure_keeps_cookie_and_user :
  let s := elapse (Throw network_error) IDLE_TIME signed_in in
  AuthContext.console s = [console_error (js "Logout error:") network_error] ∧
  cookies s !! js "user" ≠ None ∧ user s ≠ None ∧ pushed s = [].
Proof.
  cbv zeta. split_and!; first [evaluates_to_some | by vm_compute].
Qed.

Lemma failed_auto_logout_keeps_session_witness :
  let s' := handleAutoLogout 1800000 (Throw network_error) signed_in in
  AuthContext.console s'
  = AuthContext.console signed_in
    ++ [console_error (js "Logout error:") network_error] ∧
  showIdleWarning s' = false ∧ timers s' = [] ∧
  cookies s' = cookies signed_in ∧ user s' = user signed_in ∧
  pushed s' = pushed signed_in.
Proof.
  apply failed_auto_logout_keeps_session. apply reachable_signed_in.
Defined.

(** C2 as stated fails: the warning is visible since 25 minutes after
    the sign-in; a millisecond later the user moves the mouse; the
    warning is hidden, the logout timer cancelled and the warning timer
    armed again. *)
Lemma activity_hides_visible_warning :
  let warned := elapse (Ok ()) 1500000 signed_in in
  let s := handleUserActivity 1500001 warned in
  showIdleWarning warned = true ∧ armed HandleAutoLogout warned = true ∧
  showIdleWarning s = false ∧ armed HandleAutoLogout s = false ∧
  timers s = [{| timer_id := 3; due := 3000001; callback := ShowWarning |}].
Proof. by vm_compute. Qed.

Lemma activity_dismisses_warning_witness :
  let warned := elapse (Ok ()) 1500000 signed_in in
  (1000 < 1500001 - lastActivityRef warned →
   handleUserActivity 1500001 warned = extendSession 1500001 warned) ∧
  (1500001 - lastActivityRef warned ≤ 1000 →
   handleUserActivity 1500001 warned = warned) ∧
  showIdleWarning (extendSession 1500001 warned) = false ∧
  armed HandleAutoLogout (extendSession 1500001 warned) = false ∧
  timers (extendSession 1500001 warned)
  = [{| timer_id := next_timer_id warned;
        due := 1500001 + (IDLE_TIME - WARNING_TIME);
        callback := ShowWarning |}].
Proof.
  apply activity_dismisses_warning;
    [apply reachable_warned|by vm_compute|evaluates_to_some].
Defined.

(** C4 as stated fails: after the automatic logout whose
    [logoutUser()] failed the state is reachable, the warning is hidden,
    the user is not null, and no timer is armed. *)
Lemma failed_logout_leaves_user_without_timer :
  let s := elapse (Throw network_error) IDLE_TIME signed_in in
  run failing_logout (initial 0 ∅ (js "/login")) = Some s ∧
  showIdleWarning s = false ∧ user s ≠ None ∧
  armed ShowWarning s = false ∧ armed HandleAutoLogout s = false.
Proof.
  cbv zeta. split_and!; first [evaluates_to_some | by vm_compute].
Qed.

Lemma timers_exclusive_witness :
  (length (timers signed_in) ≤ 1)%nat ∧
  armed ShowWarning signed_in && armed HandleAutoLogout signed_in = false ∧
  (armed HandleAutoLogout signed_in = true →
   showIdleWarning signed_in = true ∧ user signed_in ≠ None) ∧
  (armed ShowWarning signed_in = true →
   showIdleWarning signed_in = false ∧ user signed_in ≠ None) ∧
  (showIdleWarning signed_in = true → user signed_in ≠ None →
   armed HandleAutoLogout signed_in = true) ∧
  (user signed_in = None → timers signed_in = []).
Proof.
  apply timers_exclusive. apply reachable_signed_in.
Defined.

Lemma idle_schedule_witness :
  showIdleWarning (elapse (Ok ()) 1499999 signed_in) = false ∧
  showIdleWarning (elapse (Ok ()) 1500000 signed_in) = true ∧
  user (elapse (Ok ()) 1799999 signed_in) ≠ None ∧
  user (elapse (Ok ()) 1800000 signed_in) = None.
Proof.
  assert (reachable (login (Ok {| login_role := js "parent";
                                  login_email := js "mum@example.org" |})
                       (initial 0 ∅ (js "/login"))).1) as Hr.
  { apply (reachable_handle (initial 0 ∅ (js "/login")) 0 (Login (Ok {| login_role := js "parent";
                                  login_email := js "mum@example.org" |})));
      [constructor|done]. }
  split_and!.
  - destruct (idle_schedule 0 mum (Some mum_doc) (Ok ()) 1499999 _ Hr)
      as (_ & (Hw & _) & H & _).
    unfold signed_in. rewrite H; [exact Hw|]. by vm_compute.
  - destruct (idle_schedule 0 mum (Some mum_doc) (Ok ()) 1500000 _ Hr)
      as (_ & _ & _ & H & _). apply H. by vm_compute.
  - destruct (idle_schedule 0 mum (Some mum_doc) (Ok ()) 1799999 _ Hr)
      as (_ & (_ & Hu & _) & _ & H & _).
    destruct H as (_ & H & _); [by vm_compute|].
    unfold signed_in. rewrite H. exact Hu.
  - destruct (idle_schedule 0 mum (Some mum_doc) (Ok ()) 1800000 _ Hr)
      as (_ & _ & _ & _ & H). apply H. by vm_compute.
Defined.

End AuthContextFacts.

(** ** The cookie from [login] to [getUser] *)

Module CookieFacts.
Import AuthContext Cookie Text Middleware Guard MiddlewareFacts.

(** C8 at [role = 'parent'], [email = '50%off@example.org']: the cookie
    that [login] leaves in the document is the JSON text itself, with
    its braces and quotes, not URL-encoded.  On the way to the guard
    the framework decodes the value of every cookie; this one does not
    decode, at [%of], and is left out of the request.  Both copies of
    [getUser] find no cookie, return null and log nothing, and the
    user who just logged in is sent from [/dashboard] to [/login]. *)
Lemma login_cookie_not_decodable :
  let stored := cookie_after_login discount in
  let request := request_after_login discount (js "/dashboard") in
  stored = Some (jsq "{'role':'parent','email':'50%off@example.org'}") ∧
  user_cookie request = None ∧
  Middleware.getUser request = (JNull, []) ∧
  response (Middleware.middleware request) = redirect (js "/login") ∧
  MiddlewareCopy.getUser request = (JNull, []) ∧
  response (MiddlewareCopy.middleware request) = redirect (js "/login").
Proof. vm_compute. split_and!; reflexivity. Qed.

(** An email of ASCII without a percent sign comes back. *)
Example login_cookie_plain :
  let kid := {| login_role := js "child";
                login_email := js "kid@example.org" |} in
  cookie_after_login kid
  = Some (jsq "{'role':'child','email':'kid@example.org'}") ∧
  (Middleware.getUser (request_after_login kid (js "/"))).1
  = JObject [(js "role", JString (js "child"));
             (js "email", JString (js "kid@example.org"))].
Proof. vm_compute. split_and!; reflexivity. Qed.

(** A percent sign followed by two hexadecimal digits comes back as
    another email, in both copies: the framework has decoded it. *)
Example login_cookie_other_email :
  let user := {| login_role := js "parent";
                 login_email := js "a%41@example.org" |} in
  let read := JObject [(js "role", JString (js "parent"));
                       (js "email", JString (js "aA@example.org"))] in
  (Middleware.getUser (request_after_login user (js "/"))).1 = read ∧
  (MiddlewareCopy.getUser (request_after_login user (js "/"))).1 = read.
Proof. vm_compute. split_and!; reflexivity. Qed.

(** [getUser] of src/middleware.js decodes what the framework has
    decoded already: of [a%2541] the framework makes [a%41], which the
    copy reads, and [getUser] makes [aA]. *)
Example login_cookie_decoded_twice :
  let user := {| login_role := js "parent";
                 login_email := js "a%2541@example.org" |} in
  (Middleware.getUser (request_after_login user (js "/"))).1
  = JObject [(js "role", JString (js "parent"));
             (js "email", JString (js "aA@example.org"))] ∧
  (MiddlewareCopy.getUser (request_after_login user (js "/"))).1
  = JObject [(js "role", JString (js "parent"));
             (js "email", JString (js "a%41@example.org"))].
Proof. vm_compute. split_and!; reflexivity. Qed.

(** A character outside ASCII comes back as the octets of its UTF-8
    encoding: U+0142 as the two code units 197 and 130. *)
Example login_cookie_not_ascii :
  let user := {| login_role := js "parent";
                 login_email := 322%N :: js "@example.org" |} in
  (Middleware.getUser (request_after_login user (js "/"))).1
  = JObject [(js "role", JString (js "parent"));
             (js "email", JString (197%N :: 130%N :: js "@example.org"))].
Proof. vm_compute. reflexivity. Qed.

(** A semicolon ends the value of the cookie: what follows it in the
    email is read as attributes.  The document then holds a text that
    is cut short, which does not parse; and when the email goes on
    with [max-age=0], the document holds no cookie at all. *)
Example login_cookie_semicolon :
  let cut := {| login_role := js "parent";
                login_email := js "a;b@example.org" |} in
  let gone := {| login_role := js "parent";
                 login_email := js "x;max-age=0;@example.org" |} in
  cookie_after_login cut = Some (jsq "{'role':'parent','email':'a") ∧
  Middleware.getUser (request_after_login cut (js "/"))
  = (JNull, [console_error (js "Invalid user cookie:") SyntaxError]) ∧
  cookie_after_login gone = None.
Proof. vm_compute. split_and!; reflexivity. Qed.

(** *** Where the cookie comes back *)

Local Open Scope N_scope.

Lemma stringify_role_email_shape role email :
  stringify_role_email role email
  = ch "{" :: quote :: quote_chars (js "role") ++
    quote :: ch ":" :: quote :: quote_chars role ++
    quote :: ch "," :: quote :: quote_chars (js "email") ++
    quote :: ch ":" :: quote :: quote_chars email ++ [quote; ch "}"].
Proof.
  unfold stringify_role_email, QuoteJSONString.
  cbn [app]. rewrite <- !(assoc_L (++)). reflexivity.
Qed.

Lemma JSON_parse_role_email role email :
  well_formed role → well_formed email →
  JSON_parse (stringify_role_email role email)
  = Ok (JObject [(js "role", JString role); (js "email", JString email)]).
Proof.
  intros Hr He. unfold JSON_parse.
  rewrite stringify_role_email_shape.
  match goal with |- context [S (2 * length ?text)] =>
    assert (∃ k, (2 * length text = 3 + k)%nat) as [k ->]
      by (exists (2 * length text - 3)%nat; simpl; lia)
  end.
  match goal with |- context [parse_value ?f ?t] =>
    assert (parse_value f t
            = Parsed (JObject [(js "role", JString role);
                               (js "email", JString email)]) []) as ->
  end; [|done].
  apply parse_value_object. eapply parse_members_more.
  - apply (parse_quote_chars (js "role")), well_formed_js.
  - apply parse_value_string. by apply parse_quote_chars.
  - eapply parse_members_last.
    + apply (parse_quote_chars (js "email")), well_formed_js.
    + apply parse_value_string. by apply (parse_quote_chars email [ch "}"]).
Qed.

Lemma split_on_app sep a b :
  Forall (λ c, c ≠ sep) a →
  split_on sep (a ++ sep :: b) = a :: split_on sep b.
Proof.
  induction 1 as [|c a Hc _ IH]; simpl.
  - by rewrite N.eqb_refl.
  - apply N.eqb_neq in Hc. by rewrite Hc, IH.
Qed.

(** Text that begins and ends with something other than white space
    is left as it is by [trim]. *)
Lemma trim_end_snoc s c : is_wsp c = false → trim_end (s ++ [c]) = s ++ [c].
Proof.
  intros Hc. induction s as [|a s IH]; cbn [app trim_end].
  - by rewrite Hc.
  - rewrite IH. destruct (s ++ [c]) eqn:H; [|done].
    by destruct s.
Qed.

Lemma trim_wrapped c body d :
  is_wsp c = false → is_wsp d = false →
  trim (c :: body ++ [d]) = c :: body ++ [d].
Proof.
  intros Hc Hd. unfold trim. cbn [trim_start]. rewrite Hc.
  by apply (trim_end_snoc (c :: body)).
Qed.

Lemma trim_stringify_role_email role email :
  trim (stringify_role_email role email) = stringify_role_email role email.
Proof.
  assert (∃ body, stringify_role_email role email
                  = ch "{" :: body ++ [ch "}"]) as [body ->].
  { eexists. unfold stringify_role_email.
    change (js "{") with [ch "{"]. change (js "}") with [ch "}"].
    cbn [app]. f_equal. rewrite !(assoc_L (++)). reflexivity. }
  by apply trim_wrapped.
Qed.

(** Assigning [user=value; path=/] stores the value, when it holds no
    semicolon and no white space around it. *)
Lemma assign_user_cookie_jar value jar :
  Forall (λ c, c ≠ ch ";") value → trim value = value →
  document_cookie_assign (js "user=" ++ value ++ js "; path=/") jar
  = <[js "user" := value]> jar.
Proof.
  intros H Ht. unfold document_cookie_assign.
  change (js "; path=/") with (ch ";" :: js " path=/").
  rewrite (assoc_L (++)), split_on_app
    by (apply Forall_app; split; [by repeat constructor|done]).
  change (split_on (ch ";") (js " path=/")) with [js " path=/"].
  change (break_at (ch "=") (js "user=" ++ value))
    with (js "user", Some value).
  change (expiry [js " path=/"]) with (@None Z).
  change (trim (js "user")) with (js "user"). cbv iota beta.
  by rewrite Ht.
Qed.

Lemma assign_user_cookie value jar :
  Forall (λ c, c ≠ ch ";") value → trim value = value →
  document_cookie_assign (js "user=" ++ value ++ js "; path=/") jar
  !! js "user" = Some value.
Proof.
  intros H Ht. rewrite assign_user_cookie_jar by done.
  apply lookup_insert_eq.
Qed.

Lemma stringify_role_email_keeps x role email :
  x = ch "%" ∨ x = ch ";" →
  Forall (λ c, c ≠ x) (role ++ email) →
  Forall (λ c, c ≠ x) (stringify_role_email role email).
Proof.
  intros Hx [Hr He]%Forall_app. rewrite stringify_role_email_shape.
  change (quote_chars (js "role")) with (js "role").
  change (quote_chars (js "email")) with (js "email").
  cbn [js list_ascii_of_string fmap list_fmap app].
  repeat first
    [ apply Forall_app; split; [by apply quote_chars_keeps|]
    | constructor; [destruct Hx as [-> | ->]; by vm_compute|]
    | apply Forall_nil ].
  done.
Qed.

(** ASCII stays ASCII when it is quoted, and is its own UTF-8. *)
Lemma quote_chars_ascii s : ascii s → ascii (quote_chars s).
Proof.
  assert (∀ x, hex_char (x mod 16) < 128) as Hhex.
  { intros x. pose proof (N.mod_upper_bound x 16). unfold hex_char.
    case_match; lia. }
  unfold ascii. induction 1 as [|c s Hc _ IH]; [done|]. cbn [quote_chars].
  assert (is_high_surrogate c = false) as ->.
  { unfold is_high_surrogate. apply andb_false_iff. left.
    apply N.leb_gt. lia. }
  apply Forall_app. split; [|exact IH].
  unfold quote_code_unit, unicode_escape.
  repeat case_match; repeat constructor; try done; try apply Hhex;
    by vm_compute.
Qed.

Lemma stringify_role_email_ascii role email :
  ascii role → ascii email → ascii (stringify_role_email role email).
Proof.
  intros Hr He. rewrite stringify_role_email_shape.
  change (quote_chars (js "role")) with (js "role").
  change (quote_chars (js "email")) with (js "email").
  cbn [js list_ascii_of_string fmap list_fmap app].
  repeat first
    [ apply Forall_app; split; [by apply quote_chars_ascii|]
    | constructor; [by vm_compute|]
    | apply Forall_nil ].
  done.
Qed.

Lemma utf8_encode_ascii s : ascii s → Transport.utf8_encode s = s.
Proof.
  unfold ascii. induction 1 as [|c s Hc _ IH]; [done|].
  cbn [Transport.utf8_encode].
  assert (is_high_surrogate c = false) as ->.
  { unfold is_high_surrogate. apply andb_false_iff. left.
    apply N.leb_gt. lia. }
  assert (is_low_surrogate c = false) as ->.
  { unfold is_low_surrogate. apply andb_false_iff. left.
    apply N.leb_gt. lia. }
  unfold Transport.utf8_octets. apply N.ltb_lt in Hc. rewrite Hc.
  cbn [app]. by rewrite IH.
Qed.

Lemma printable_ascii s : printable s → ascii s ∧ well_formed s.
Proof.
  intros H. split; (eapply Forall_impl; [exact H|]); simpl; lia.
Qed.

(** The framework hands on a value of ASCII without a percent sign as
    the document holds it. *)
Lemma request_cookie_plain value :
  ascii value → Forall (λ c, c ≠ ch "%") value →
  Transport.request_cookie (Some value) = Some value.
Proof.
  intros Ha Hp. unfold Transport.request_cookie, Transport.parseCookie_value.
  cbn [mbind option_bind]. by rewrite utf8_encode_ascii, decode_no_percent.
Qed.

(** X1, where C8 holds: for a role and an email of printable ASCII
    without percent sign and semicolon, the cookie that [login] leaves
    in the document is the JSON text itself, the framework hands it to
    the guard as it is, and [getUser] of both copies reads the role and
    the email back and logs nothing. *)
Theorem login_round_trip role email p :
  printable role → printable email →
  Forall (λ c, c ≠ ch "%") (role ++ email) →
  Forall (λ c, c ≠ ch ";") (role ++ email) →
  let u := {| login_role := role; login_email := email |} in
  let user := JObject [(js "role", JString role);
                       (js "email", JString email)] in
  cookie_after_login u = Some (stringify_role_email role email) ∧
  user_cookie (request_after_login u p) = cookie_after_login u ∧
  getUser (request_after_login u p) = (user, []) ∧
  MiddlewareCopy.getUser (request_after_login u p) = (user, []).
Proof.
  intros [Har Hr]%printable_ascii [Hae He]%printable_ascii Hpercent Hsemi.
  cbv zeta. unfold request_after_login.
  assert (cookie_after_login {| login_role := role; login_email := email |}
          = Some (stringify_role_email role email)) as ->.
  { unfold cookie_after_login, login, assign_document_cookie.
    cbn [fst cookies set_cookies login_role login_email initial].
    apply assign_user_cookie; [|apply trim_stringify_role_email].
    by apply stringify_role_email_keeps; [right|]. }
  rewrite request_cookie_plain
    by (by apply stringify_role_email_ascii
        || by apply stringify_role_email_keeps; [left|]).
  cbn [user_cookie].
  pose proof (JSON_parse_role_email role email Hr He) as Hparse.
  split; [done|]. split; [done|]. split.
  - apply getUser_parsed.
    rewrite decode_no_percent by (by apply stringify_role_email_keeps; [left|]).
    exact Hparse.
  - unfold MiddlewareCopy.getUser. cbn [user_cookie].
    rewrite stringify_role_email_shape at 1.
    rewrite Hparse. done.
Qed.

Example login_round_trip_kid :
  let u := {| login_role := js "child"; login_email := js "kid@example.org" |} in
  let user := JObject [(js "role", JString (js "child"));
                       (js "email", JString (js "kid@example.org"))] in
  cookie_after_login u
  = Some (stringify_role_email (js "child") (js "kid@example.org")) ∧
  user_cookie (request_after_login u (js "/")) = cookie_after_login u ∧
  getUser (request_after_login u (js "/")) = (user, []) ∧
  MiddlewareCopy.getUser (request_after_login u (js "/")) = (user, []).
Proof.
  apply login_round_trip; vm_compute; repeat constructor; done.
Defined.

End CookieFacts.

(** ** Further properties of the route guard *)

Module GuardFacts.
Import Middleware Guard MiddlewareFacts MiddlewareCopyFacts.

Section paths.
Implicit Types request : Request.
Implicit Types p target : jsstring.

(** The role of a user is one string. *)
Lemma role_child_not_parent user :
  is_string (get user (js "role")) (js "child") = true →
  is_string (get user (js "role")) (js "parent") = false.
Proof.
  intros Hc. destruct (is_string _ (js "parent")) eqn:Hp; [|done].
  pose proof (is_string_inj _ _ _ Hc Hp) as H. vm_compute in H. discriminate.
Qed.

(** The three targets of [decision], each with the user it is for. *)
Lemma decision_redirects p user target :
  decision p user = redirect target →
  (target = js "/login" ∧ truthy user = false) ∨
  (target = js "/" ∧ is_string (get user (js "role")) (js "child") = true) ∨
  (target = js "/dashboard" ∧ truthy user = true ∧
   is_string (get user (js "role")) (js "child") = false).
Proof.
  unfold decision.
  destruct (is_public p).
  - destruct (truthy user) eqn:Ht; cbn [andb]; [|done].
    destruct (_ || _); [|done].
    destruct (is_string _ (js "child")) eqn:Hc; intros [= <-]; auto.
  - destruct (truthy user) eqn:Ht; cbn [negb]; [|intros [= <-]; auto].
    destruct (is_string _ (js "parent")) eqn:Hp.
    + destruct (_ || _); [|done]. intros [= <-]. right; right.
      split_and!; [done..|].
      destruct (is_string _ (js "child")) eqn:Hc; [|done].
      by rewrite (role_child_not_parent _ Hc) in Hp.
    + destruct (is_string _ (js "child")) eqn:Hc; [|done].
      destruct (is_parent_only p); [|done]. intros [= <-]. auto.
Qed.

(** A target of [decision] is not bypassed, and [decision] lets the
    same user pass there. *)
Lemma decision_target_passes p user target :
  decision p user = redirect target →
  bypassed target = false ∧ decision target user = next.
Proof.
  intros [(-> & Ht)|[(-> & Hc)|(-> & Ht & Hc)]]%decision_redirects;
    (split; [reflexivity|]); unfold decision.
  - change (is_public (js "/login")) with true. cbv iota. by rewrite Ht.
  - change (is_public (js "/")) with true. cbv iota.
    change (str_eqb (js "/") (js "/login")) with false.
    change (str_eqb (js "/") (js "/register")) with false.
    by rewrite andb_false_r.
  - change (is_public (js "/dashboard")) with false. cbv iota.
    rewrite Ht, Hc. cbn [negb].
    change (str_eqb (js "/dashboard") (js "/kid-dashboard")) with false.
    change (startsWith (js "/kid-dashboard/") (js "/dashboard")) with false.
    cbn [orb]. by destruct (is_string _ (js "parent")).
Qed.

(** X2: the guard never sends a request into a loop: when it answers
    with a redirect, a request for the target with the same cookie
    passes. *)
Theorem redirect_target_passes request target :
  response (middleware request) = redirect target →
  response (middleware {| pathname := target;
                          user_cookie := user_cookie request |}) = next.
Proof.
  rewrite !middleware_decision. cbn [pathname].
  destruct (bypassed (pathname request)); [done|].
  intros [Hb H]%decision_target_passes. rewrite Hb.
  by destruct request.
Qed.

(** X3: where the guard redirects to depends on the session alone: a
    request without a session is only ever sent to [/login], one with a
    child session only to [/], and one with any other session only to
    [/dashboard]. *)
Theorem redirect_by_session request target :
  response (middleware request) = redirect target →
  (target = js "/login" ∧ no_session request) ∨
  (target = js "/" ∧ has_role request (js "child")) ∨
  (target = js "/dashboard" ∧ truthy (session request) = true ∧
   ¬ has_role request (js "child")).
Proof.
  rewrite middleware_decision.
  destruct (bypassed (pathname request)); [done|].
  intros [?|[?|(? & ? & H)]]%decision_redirects; [auto..|].
  right; right. split_and!; [done..|].
  unfold has_role. by rewrite H.
Qed.


(** X4: on a public route, exact or followed by a slash, a request
    without a session passes, and so does any request for a route other
    than [/login] and [/register]; a request with a session for
    [/login] or [/register] is redirected, a child to [/] and everyone
    else to [/dashboard]. *)
Theorem public_route_open request :
  is_public (pathname request) = true →
  (no_session request → response (middleware request) = next) ∧
  (pathname request ≠ js "/login" → pathname request ≠ js "/register" →
   response (middleware request) = next) ∧
  (truthy (session request) = true →
   pathname request = js "/login" ∨ pathname request = js "/register" →
   response (middleware request)
   = redirect (if is_string (get (session request) (js "role")) (js "child")
               then js "/" else js "/dashboard")).
Proof.
  intros Hp. rewrite middleware_decision. unfold decision. rewrite Hp.
  split_and!.
  - intros ->. by destruct (bypassed _).
  - intros ->%str_eqb_neq ->%str_eqb_neq. rewrite andb_false_r.
    by destruct (bypassed _).
  - intros -> [H|H]; rewrite H; reflexivity.
Qed.

(** X5: the role checks fall through: a session whose role is neither
    ['parent'] nor ['child'] passes on every route that is not
    public. *)
Theorem other_role_passes request :
  is_public (pathname request) = false →
  truthy (session request) = true →
  ¬ has_role request (js "parent") → ¬ has_role request (js "child") →
  response (middleware request) = next.
Proof.
  unfold has_role. intros Hp Ht Hparent Hchild.
  rewrite middleware_decision. destruct (bypassed _); [done|].
  unfold decision. rewrite Hp, Ht. cbn [negb].
  destruct (is_string _ (js "parent")); [done|].
  by destruct (is_string _ (js "child")).
Qed.

(** X6: [config.matcher] hands every protected path to the guard: the
    routes of parents, exact or followed by a slash, and
    [/kid-dashboard] and what is under it. *)
Theorem protected_paths_matched p :
  is_parent_only p = true ∨ p = js "/kid-dashboard" ∨
    startsWith (js "/kid-dashboard/") p = true →
  matcher p = true.
Proof.
  intros [(route & Hin & H)%is_parent_only_cases
         |[->|(rest & ->)%startsWith_app]]; [|done..].
  unfold parentOnlyRoutes in Hin.
  repeat (apply elem_of_cons in Hin as [->|Hin]);
    [..|by apply elem_of_nil in Hin];
    (destruct H as [->|(rest & ->)]; done).
Qed.

(** X7: the guard does not protect the API: a path that begins with
    [/api] is not selected by [config.matcher], and were it handed to
    [middleware], it would pass without the cookie being read, whatever
    the cookie. *)
Theorem api_paths_unguarded p cookie :
  startsWith (js "/api") p = true →
  matcher p = false ∧
  middleware {| pathname := p; user_cookie := cookie |}
  = {| response := next; console := [] |}.
Proof.
  intros H. split.
  - apply startsWith_app in H as (rest & ->). reflexivity.
  - unfold middleware, bypassed. cbn [pathname]. rewrite H.
    by rewrite orb_true_r.
Qed.

Lemma middleware_console request :
  console (middleware request)
  = if bypassed (pathname request) then [] else (getUser request).2.
Proof.
  unfold middleware. destruct (bypassed _); [done|].
  destruct (getUser request) as [user log]. cbv zeta. cbn [snd].
  case_tests; reflexivity.
Qed.

Lemma getUser_console request :
  (getUser request).2
  = match user_cookie request with
    | Some (c :: cookie) =>
        match decodeURIComponent (c :: cookie) ≫= JSON_parse with
        | Ok _ => []
        | Throw error => [console_error (js "Invalid user cookie:") error]
        end
    | _ => []
    end.
Proof.
  unfold getUser. destruct (user_cookie request) as [[|c cookie]|]; [done| |done].
  unfold mbind, result_bind.
  destruct (decodeURIComponent (c :: cookie)) as [text|e]; [|done].
  by destruct (JSON_parse text).
Qed.

(** X8: the guard writes to the console exactly when the path is not
    bypassed and the cookie is not empty and does not decode or parse;
    it then writes the one entry [Invalid user cookie:] with the
    error. *)
Theorem guard_logs_bad_cookie request :
  (console (middleware request) ≠ [] ↔
   bypassed (pathname request) = false ∧
   ∃ cookie, user_cookie request = Some cookie ∧ cookie ≠ [] ∧
             malformed cookie) ∧
  (∀ entry, entry ∈ console (middleware request) →
            ∃ error, console (middleware request)
                     = [console_error (js "Invalid user cookie:") error]).
Proof.
  rewrite middleware_console, getUser_console. unfold malformed.
  destruct (bypassed _).
  { split; [|by intros ? ?%elem_of_nil]. split; [done|]. by intros [? _]. }
  destruct (user_cookie request) as [[|c cookie]|].
  - split; [|by intros ? ?%elem_of_nil].
    split; [done|]. intros (_ & ? & [= <-] & ? & _). done.
  - destruct (decodeURIComponent (c :: cookie) ≫= JSON_parse)
      as [user|error] eqn:Hd.
    + split; [|by intros ? ?%elem_of_nil].
      split; [done|]. intros (_ & ? & [= <-] & _ & e & H).
      rewrite Hd in H. done.
    + split; [|by eauto]. split; [|done]. intros _. split; [done|].
      exists (c :: cookie). split_and!; [done..|]. by exists error.
  - split; [|by intros ? ?%elem_of_nil].
    split; [done|]. intros (_ & ? & [=] & _).
Qed.

(** The two copies read the same user from a cookie without a percent
    sign. *)
Lemma session_copy_no_percent request :
  (∀ cookie, user_cookie request = Some cookie →
             Forall (λ c, c ≠ ch "%") cookie) →
  session_copy request = session request.
Proof.
  intros H. unfold session_copy, session, MiddlewareCopy.getUser, getUser.
  destruct (user_cookie request) as [[|c cookie]|]; [done| |done].
  rewrite decode_no_percent by by apply H.
  unfold mbind, result_bind. by destruct (JSON_parse (c :: cookie)).
Qed.

(** X9: the two copies of the guard give the same answer to every
    request whose cookie, if any, holds no percent sign. *)
Theorem copies_agree request :
  (∀ cookie, user_cookie request = Some cookie →
             Forall (λ c, c ≠ ch "%") cookie) →
  response (MiddlewareCopy.middleware request) = response (middleware request).
Proof.
  intros H. by rewrite copy_decision, middleware_decision,
    session_copy_no_percent.
Qed.

(** [getUser] of the copy logs errors only. *)
Lemma copy_getUser_log request entry :
  entry ∈ (MiddlewareCopy.getUser request).2 →
  ∃ error, entry = console_error (js "Error parsing user cookie:") error.
Proof.
  unfold MiddlewareCopy.getUser.
  destruct (user_cookie request) as [[|c cookie]|];
    [by intros ?%elem_of_nil| |by intros ?%elem_of_nil].
  unfold mbind, result_bind.
  destruct (JSON_parse (c :: cookie)) as [user|error];
    [by intros ?%elem_of_nil|].
  intros ->%list_elem_of_singleton. by eexists.
Qed.

(** X10: the second copy logs its message about redirecting a child
    exactly when the path is not bypassed, is a route of parents, and
    the session has the role ['child']. *)
Theorem copy_logs_child_redirect request :
  console_log MiddlewareCopy.redirecting_child
    ∈ console (MiddlewareCopy.middleware request) ↔
  bypassed (pathname request) = false ∧
  is_parent_only (pathname request) = true ∧
  is_string (get (session_copy request) (js "role")) (js "child") = true.
Proof.
  unfold MiddlewareCopy.middleware, session_copy.
  change (startsWith (js "/_next") (pathname request) ||
          startsWith (js "/api") (pathname request) ||
          includes (js ".") (pathname request))
    with (bypassed (pathname request)).
  change (array_includes MiddlewareCopy.publicRoutes (pathname request) ||
          existsb (λ route, startsWith (route ++ js "/") (pathname request))
            MiddlewareCopy.publicRoutes)
    with (is_public (pathname request)).
  change (existsb _ MiddlewareCopy.parentOnlyRoutes)
    with (is_parent_only (pathname request)).
  destruct (bypassed _) eqn:Hb.
  { cbn [console]. split; [by intros ?%elem_of_nil|by intros [? _]]. }
  pose proof (copy_getUser_log request
                (console_log MiddlewareCopy.redirecting_child)) as Hlog.
  destruct (MiddlewareCopy.getUser request) as [user log]. cbv zeta.
  cbn [fst snd] in *.
  assert (console_log MiddlewareCopy.redirecting_child ∉ log) as Hnot
    by (by intros [? ?]%Hlog).
  destruct (is_parent_only (pathname request)) eqn:Hp.
  - destruct (parent_only_not_public _ Hp) as (-> & _).
    destruct (is_string _ (js "child")) eqn:Hc.
    + rewrite (is_string_role_truthy _ _ Hc), (role_child_not_parent _ Hc).
      cbn [negb console]. split; [done|]. intros _. set_solver.
    + case_tests; cbn [console]; (split; [done|]); by intros (_ & _ & ?).
  - case_tests; cbn [console]; (split; [done|]); by intros (_ & ? & _).
Qed.

(** X11: the second copy of the guard sends no request into a loop
    either: the target of a redirect, requested with the same cookie,
    passes. *)
Theorem copy_target_passes request target :
  response (MiddlewareCopy.middleware request) = redirect target →
  response (MiddlewareCopy.middleware
              {| pathname := target; user_cookie := user_cookie request |})
  = next.
Proof.
  rewrite !copy_decision. cbn [pathname].
  destruct (bypassed (pathname request)); [done|].
  intros [Hb H]%decision_target_passes. rewrite Hb.
  by destruct request.
Qed.

End paths.

(** A child asks for [/my-stories], is sent to [/], and passes there. *)
Lemma redirect_target_passes_witness :
  response (middleware {| pathname := js "/"; user_cookie := Some child_cookie |})
  = next.
Proof.
  apply (redirect_target_passes
           {| pathname := js "/my-stories"; user_cookie := Some child_cookie |}
           (js "/")).
  by vm_compute.
Defined.

(** A child asks for [/settings] and is sent to [/]. *)
Lemma redirect_by_session_witness :
  let request := {| pathname := js "/settings";
                    user_cookie := Some child_cookie |} in
  (js "/" = js "/login" ∧ no_session request) ∨
  (js "/" = js "/" ∧ has_role request (js "child")) ∨
  (js "/" = js "/dashboard" ∧ truthy (session request) = true ∧
   ¬ has_role request (js "child")).
Proof.
  apply (redirect_by_session
           {| pathname := js "/settings"; user_cookie := Some child_cookie |}
           (js "/")).
  by vm_compute.
Defined.

(** [/login], asked for by a child. *)
Lemma public_route_open_witness :
  let request := {| pathname := js "/login";
                    user_cookie := Some child_cookie |} in
  (no_session request → response (middleware request) = next) ∧
  (pathname request ≠ js "/login" → pathname request ≠ js "/register" →
   response (middleware request) = next) ∧
  (truthy (session request) = true →
   pathname request = js "/login" ∨ pathname request = js "/register" →
   response (middleware request)
   = redirect (if is_string (get (session request) (js "role")) (js "child")
               then js "/" else js "/dashboard")).
Proof.
  apply (public_route_open
           {| pathname := js "/login"; user_cookie := Some child_cookie |}).
  by vm_compute.
Defined.

(** A cookie with the role ['admin'] passes on [/dashboard]. *)
Lemma other_role_passes_witness :
  response (middleware {| pathname := js "/dashboard";
                          user_cookie := Some (jsq "{'role':'admin'}") |})
  = next.
Proof.
  apply other_role_passes;
    [by vm_compute|by vm_compute|intros H; by vm_compute in H..].
Defined.

(** [/my-stories/42] is handed to the guard. *)
Lemma protected_paths_matched_witness : matcher (js "/my-stories/42") = true.
Proof. apply protected_paths_matched. left. by vm_compute. Defined.

(** [/api/stories], with a cookie that does not decode. *)
Lemma api_paths_unguarded_witness :
  matcher (js "/api/stories") = false ∧
  middleware {| pathname := js "/api/stories";
                user_cookie := Some (js "50%off") |}
  = {| response := next; console := [] |}.
Proof. apply api_paths_unguarded. by vm_compute. Defined.

(** The cookie of a child holds no percent sign. *)
Lemma copies_agree_witness :
  let request := {| pathname := js "/dashboard";
                    user_cookie := Some child_cookie |} in
  response (MiddlewareCopy.middleware request) = response (middleware request).
Proof.
  apply copies_agree. intros cookie [= <-].
  vm_compute. repeat constructor; done.
Defined.

(** A parent asks for [/login], is sent to [/dashboard], and passes there. *)
Lemma copy_target_passes_witness :
  response (MiddlewareCopy.middleware
              {| pathname := js "/dashboard";
                 user_cookie := Some parent_cookie |})
  = next.
Proof.
  apply (copy_target_passes
           {| pathname := js "/login"; user_cookie := Some parent_cookie |}
           (js "/dashboard")).
  by vm_compute.
Defined.

End GuardFacts.

(** ** Further properties of the session guard *)

Module SessionFacts.
Import AuthContext Session Idle Calls Answers AuthContextFacts.

Local Open Scope Z_scope.

Section shapes.
Implicit Types s : State.

(** What [resetIdleTimer] does for a user, when the refs hold every
    pending timeout. *)
Lemma resetIdleTimer_held now s :
  held s → user s ≠ None →
  resetIdleTimer now s
  = set_warningTimerRef (Some (next_timer_id s))
      (set_timers [{| timer_id := next_timer_id s;
                      due := now + (IDLE_TIME - WARNING_TIME);
                      callback := ShowWarning |}]
         (N.succ (next_timer_id s))
         (setShowIdleWarning false (set_lastActivityRef now s))).
Proof.
  intros Hh Hu. unfold resetIdleTimer. destruct (user s); [|done].
  rewrite clearIdleTimers_held by exact Hh. by destruct s.
Qed.

(** [resetIdleTimer] touches the warning, the refs, the clock of the
    last activity and the timeouts only. *)
Lemma resetIdleTimer_shape now s :
  ∃ w r l ts n,
    resetIdleTimer now s
    = set_warningTimerRef r
        (set_timers ts n (setShowIdleWarning w (set_lastActivityRef l s))).
Proof.
  unfold resetIdleTimer. destruct (user s).
  - rewrite clearIdleTimers_frame. by eexists _, _, _, _, _.
  - exists (showIdleWarning s), (warningTimerRef s), (lastActivityRef s),
      (timers s), (next_timer_id s). by destruct s.
Qed.

(** [setUser] with the null user, in a state of the invariant. *)
Lemma setUser_None now s :
  Inv s → setUser now None s = set_user None (set_timers [] (next_timer_id s) s).
Proof.
  intros HI. unfold setUser. rewrite user_effect_cleanup_Inv by done.
  unfold resetIdleTimer. cbn [user set_user]. by apply child_effect_null.
Qed.

(** [setUser] touches the user, the warning, the refs, the clock of the
    last activity, the timeouts and the pushes only. *)
Lemma setUser_shape now u s :
  ∃ w r l ts n p,
    setUser now u s
    = {| user := u; loading := loading s; showIdleWarning := w;
         idleTimerRef := idleTimerRef s; warningTimerRef := r;
         lastActivityRef := l; timers := ts; next_timer_id := n;
         cookies := cookies s; location := location s; pushed := p;
         console := AuthContext.console s; written := written s;
         awaiting_autoLogout := awaiting_autoLogout s;
         awaiting_logout := awaiting_logout s |}.
Proof.
  unfold setUser.
  destruct (resetIdleTimer_shape now (set_user u (user_effect_cleanup s)))
    as (w & r & l & ts & n & ->).
  rewrite user_effect_cleanup_frame.
  match goal with |- context [child_effect ?x] =>
    destruct (child_effect_cases x) as [-> | ->]
  end; by eexists _, _, _, _, _, _.
Qed.

End shapes.

Section listener.
Implicit Types s : State.

(** The callback of the identity service with the null user. *)
Lemma onAuthStateChanged_null now userDoc stored s :
  Inv s →
  onAuthStateChanged now None userDoc stored s
  = setLoading false
      (set_user None
         (setShowIdleWarning false (set_timers [] (next_timer_id s) s))).
Proof.
  intros HI. unfold onAuthStateChanged.
  rewrite clearIdleTimers_held by by apply Inv_held.
  rewrite setUser_None by by left.
  by destruct s.
Qed.

(** X12: when the identity service reports that nobody is signed in,
    the user becomes null, no timeout stays pending, the warning is
    hidden and the loading ends; the cookies are not touched and
    nothing is pushed to the router or logged. *)
Theorem signed_out_clears_session now userDoc stored s :
  reachable s →
  let s' := onAuthStateChanged now None userDoc stored s in
  user s' = None ∧ timers s' = [] ∧ showIdleWarning s' = false ∧
  loading s' = false ∧
  cookies s' = cookies s ∧ pushed s' = pushed s ∧
  AuthContext.console s' = AuthContext.console s.
Proof.
  intros HI%reachable_Inv. cbv zeta.
  by rewrite onAuthStateChanged_null.
Qed.

(** The keys that [userObject] takes from the identity service. *)
Lemma userObject_lookup a data k :
  userObject a data !! k
  = match data !! k with
    | Some v => Some v
    | None =>
        if decide (k = js "uid") then Some (Plain (JString (uid a)))
        else if decide (k = js "email") then Some (nullable (email a))
        else if decide (k = js "displayName")
             then Some (nullable (displayName a))
             else None
    end.
Proof.
  unfold userObject. rewrite lookup_union.
  destruct (data !! k) as [v|]; [by rewrite union_Some_l|].
  rewrite (left_id_L None union).
  repeat (case_decide; [subst k; by vm_compute|]).
  by rewrite !lookup_insert_ne, lookup_empty.
Qed.

(** X13: for a user with a document, the document wins: every field
    of the document is in the user object as it is, also [uid], [email]
    and [displayName]; these three come from the identity service only
    when the document lacks them, and the user object holds nothing
    else.  The loading ends, nothing is written to the store, and the
    cookies are not touched. *)
Theorem document_overrides_auth now a data stored s :
  let s' := onAuthStateChanged now (Some a) (Ok (Some data)) stored s in
  ∃ profile,
    user s' = Some profile ∧
    (∀ k v, data !! k = Some v → profile !! k = Some v) ∧
    (data !! js "uid" = None →
     profile !! js "uid" = Some (Plain (JString (uid a)))) ∧
    (data !! js "email" = None →
     profile !! js "email" = Some (nullable (email a))) ∧
    (data !! js "displayName" = None →
     profile !! js "displayName" = Some (nullable (displayName a))) ∧
    (∀ k, data !! k = None → k ≠ js "uid" → k ≠ js "email" →
          k ≠ js "displayName" → profile !! k = None) ∧
    loading s' = false ∧ written s' = written s ∧ cookies s' = cookies s.
Proof.
  cbv zeta. unfold onAuthStateChanged.
  destruct (setUser_shape now (Some (userObject a data)) s)
    as (w & r & l & ts & n & p & ->).
  exists (userObject a data). split; [done|].
  split_and!; try done.
  - intros k v H. by rewrite userObject_lookup, H.
  - intros H. by rewrite userObject_lookup, H.
  - intros H. by rewrite userObject_lookup, H.
  - intros H. by rewrite userObject_lookup, H.
  - intros k H ? ? ?. rewrite userObject_lookup, H.
    by repeat case_decide.
Qed.

(** X14: [refreshUser] for a signed-in user with a document sets the
    user object anew, and with it restarts the idle countdown: the
    warning is hidden, and the one pending timeout is the warning
    timer, due [IDLE_TIME - WARNING_TIME] from now; [loading] and the
    cookies are as they were. *)
Theorem refresh_restarts_countdown now a data s :
  reachable s →
  let s' := refreshUser now (Some a) (Ok (Some data)) s in
  user s' = Some (userObject a data) ∧
  showIdleWarning s' = false ∧
  timers s' = [{| timer_id := next_timer_id s;
                  due := now + (IDLE_TIME - WARNING_TIME);
                  callback := ShowWarning |}] ∧
  lastActivityRef s' = now ∧
  loading s' = loading s ∧ cookies s' = cookies s.
Proof.
  intros HI%reachable_Inv. cbv zeta. unfold refreshUser.
  rewrite setUser_Some by done.
  match goal with |- context [child_effect ?x] =>
    destruct (child_effect_cases x) as [-> | ->]
  end; done.
Qed.

End listener.

Section logging_out.
Implicit Types s : State.

(** X15: [logout] cancels the pending timeouts and hides the warning
    before it calls [logoutUser()], and leaves the user as it is.  When
    the call succeeds the cookie [user] is removed and [/login] is
    pushed; when it fails the error is logged and thrown again, and the
    cookies and the route are as they were. *)
Theorem logout_outcomes outcome s :
  reachable s →
  let s' := (logout outcome s).1 in
  (logout outcome s).2 = outcome ∧
  timers s' = [] ∧ showIdleWarning s' = false ∧ user s' = user s ∧
  match outcome with
  | Ok _ =>
      cookies s' = delete (js "user") (cookies s) ∧
      pushed s' = pushed s ++ [js "/login"] ∧
      AuthContext.console s' = AuthContext.console s
  | Throw error =>
      cookies s' = cookies s ∧ pushed s' = pushed s ∧
      AuthContext.console s'
      = AuthContext.console s ++ [console_error (js "Logout error:") error]
  end.
Proof.
  intros Hh%reachable_Inv%Inv_held. cbv zeta.
  unfold logout, logout_begin, logout_settle.
  rewrite clearIdleTimers_held by exact Hh.
  destruct outcome as [[]|error]; done.
Qed.

(** X16: when [logoutUser()] succeeds in [handleAutoLogout], the user
    is null, no timeout is pending, the warning is hidden,
    [/login?reason=idle] is pushed and the cookie [user] is removed; a
    request that then carries the cookies of the document is redirected
    to [/login] on every path that is neither bypassed nor public. *)
Theorem auto_logout_signs_out now s :
  reachable s →
  let s' := handleAutoLogout now (Ok ()) s in
  user s' = None ∧ timers s' = [] ∧ showIdleWarning s' = false ∧
  pushed s' = pushed s ++ [js "/login?reason=idle"] ∧
  cookies s' = delete (js "user") (cookies s) ∧
  ∀ p, Middleware.bypassed p = false → Middleware.is_public p = false →
       response (Middleware.middleware
                   {| pathname := p; user_cookie := cookies s' !! js "user" |})
       = redirect (js "/login").
Proof.
  intros Hh%reachable_Inv%Inv_held. cbv zeta.
  unfold handleAutoLogout, handleAutoLogout_begin, handleAutoLogout_settle.
  rewrite clearIdleTimers_held by exact Hh.
  rewrite setUser_None by by left.
  cbn [user timers showIdleWarning pushed cookies set_user set_timers
       router_push assign_document_cookie set_cookies set_awaiting
       setShowIdleWarning].
  rewrite clear_user_cookie, lookup_delete_eq.
  split_and!; try done.
  intros p Hb Hp. rewrite MiddlewareFacts.middleware_decision. cbn [pathname].
  rewrite Hb. by apply MiddlewareFacts.decision_no_session.
Qed.

End logging_out.


Section schedule.
Implicit Types s : State.

Lemma on_schedule_nil s : timers s = [] → on_schedule s.
Proof. intros H t. rewrite H. by intros ?%elem_of_nil. Qed.

Lemma on_schedule_frame s s' :
  timers s' = timers s → lastActivityRef s' = lastActivityRef s →
  on_schedule s → on_schedule s'.
Proof. intros Ht Hl H t. rewrite Ht, Hl. apply H. Qed.

Lemma on_schedule_resetIdleTimer now s :
  Inv s → on_schedule s → on_schedule (resetIdleTimer now s).
Proof.
  intros HI Hs. destruct (user s) eqn:Hu.
  - rewrite resetIdleTimer_held by (by apply Inv_held || by rewrite Hu).
    intros t ->%list_elem_of_singleton. reflexivity.
  - unfold resetIdleTimer. by rewrite Hu.
Qed.

Lemma on_schedule_setUser now u s : Inv s → on_schedule (setUser now u s).
Proof.
  intros HI. destruct u as [u|].
  - rewrite setUser_Some by done.
    match goal with |- context [child_effect ?x] =>
      destruct (child_effect_cases x) as [-> | ->]
    end; intros t ->%list_elem_of_singleton; reflexivity.
  - rewrite setUser_None by done. by apply on_schedule_nil.
Qed.

Lemma on_schedule_setLoading b s :
  on_schedule s → on_schedule (setLoading b s).
Proof. intros H. exact H. Qed.
Lemma on_schedule_router_push url s :
  on_schedule s → on_schedule (router_push url s).
Proof. intros H. exact H. Qed.

Lemma on_schedule_onAuthStateChanged now authUser userDoc stored s :
  Inv s → on_schedule s →
  on_schedule (onAuthStateChanged now authUser userDoc stored s).
Proof.
  intros HI Hs. destruct authUser as [a|].
  - unfold onAuthStateChanged.
    destruct userDoc as [[data|]|]; [..|exact Hs].
    + by apply on_schedule_setLoading, on_schedule_setUser.
    + destruct stored; [|exact Hs].
      by apply on_schedule_setLoading, on_schedule_setUser, Inv_setDoc.
  - rewrite onAuthStateChanged_null by done. by apply on_schedule_nil.
Qed.

Lemma on_schedule_fire now id s s' :
  Inv s → on_schedule s → fire now id s = Some s' → on_schedule s'.
Proof.
  intros HI Hs. unfold fire.
  destruct HI as [[H ?]|[(t & H & Hc & Hr & Hw & Hu)|(t & H & Hc & Hr & Hw & Hu)]];
    rewrite H, ?filter_cons, ?filter_nil; [done|..];
    (case_decide; [|done]; subst id; destruct (due t <=? now) eqn:Hdue; [|done];
     intros [= <-]; rewrite Hc).
  - change (set_timers _ _ s) with (clearTimeout (Some (timer_id t)) s).
    unfold on_schedule. intros t'. rewrite showWarning_timers by done.
    intros ->%list_elem_of_singleton. cbn [callback due].
    change (lastActivityRef (showWarning _ _)) with (lastActivityRef s).
    specialize (Hs t). rewrite H, Hc in Hs.
    rewrite Hs in Hdue by set_solver.
    apply Z.leb_le in Hdue. unfold IDLE_TIME, WARNING_TIME in *. lia.
  - apply on_schedule_nil. unfold handleAutoLogout_begin.
    rewrite clearIdleTimers_held; [done|].
    intros t'. simpl. rewrite H, clearTimeout_same. set_solver.
Qed.

Lemma on_schedule_handle now ev s s' :
  Inv s → on_schedule s → handle now ev s = Some s' → on_schedule s'.
Proof.
  intros HI Hs. destruct ev; simpl.
  - intros [= <-]. by apply on_schedule_onAuthStateChanged.
  - intros [= <-]. unfold refreshUser.
    destruct currentUser; [|exact Hs].
    destruct userDoc as [[?|]|];
      [by apply on_schedule_setUser|exact Hs|exact Hs].
  - intros [= <-]. unfold register. destruct (registered ≫= _); exact Hs.
  - intros [= <-]. unfold login. destruct loggedIn; exact Hs.
  - intros [= <-]. apply on_schedule_nil. unfold logout_begin.
    by rewrite clearIdleTimers_held by by apply Inv_held.
  - destruct (awaiting_logout s); [done|]. intros [= <-].
    unfold logout_settle. destruct outcome; exact Hs.
  - intros [= <-]. apply on_schedule_nil. unfold handleAutoLogout_begin.
    by rewrite clearIdleTimers_held by exact (Inv_held _ HI).
  - destruct (awaiting_autoLogout s); [done|]. intros [= <-].
    unfold handleAutoLogout_settle. destruct outcome as [[]|e]; [|exact Hs].
    by apply on_schedule_router_push, on_schedule_setUser,
      Inv_assign_document_cookie, Inv_set_awaiting.
  - intros [= <-]. unfold handleUserActivity.
    destruct (user s); [|done].
    destruct (1000 <? _); [by apply on_schedule_resetIdleTimer|done].
  - intros [= <-]. by apply on_schedule_resetIdleTimer.
  - by apply on_schedule_fire.
  - intros [= <-]. exact Hs.
Qed.

Lemma reachable_on_schedule s : reachable s → on_schedule s.
Proof.
  induction 1 as [| s now ev s' Hr IH H].
  - by apply on_schedule_nil.
  - eapply on_schedule_handle; [by apply reachable_Inv| |]; done.
Qed.

(** X17: in every reachable state a pending warning timer is due
    exactly [IDLE_TIME - WARNING_TIME], 25 minutes, after the last
    recorded activity, and a pending logout timer no earlier than
    [IDLE_TIME], 30 minutes, after it. *)
Theorem timers_on_schedule s t :
  reachable s → t ∈ timers s →
  match callback t with
  | ShowWarning => due t = lastActivityRef s + (IDLE_TIME - WARNING_TIME)
  | HandleAutoLogout => lastActivityRef s + IDLE_TIME ≤ due t
  end.
Proof. intros Hr. by apply reachable_on_schedule. Qed.

(** X18: while the warning timer is armed, after any activity event
    the warning is hidden and its timer, the one pending timeout, is
    due 25 minutes after the last recorded activity, which is at most
    1000 ms before the event. *)
Theorem activity_postpones_warning now s :
  reachable s → armed ShowWarning s = true →
  ∃ t, timers (handleUserActivity now s) = [t] ∧
       callback t = ShowWarning ∧
       now + (IDLE_TIME - WARNING_TIME) - 1000 ≤ due t ∧
       due t = lastActivityRef (handleUserActivity now s)
               + (IDLE_TIME - WARNING_TIME) ∧
       showIdleWarning (handleUserActivity now s) = false.
Proof.
  intros Hr Ha. pose proof (reachable_Inv _ Hr) as HI.
  pose proof (reachable_on_schedule s Hr) as Hs.
  destruct HI as [[H ?]|[(t & H & Hc & Href & Hw & Hu)|(t & H & Hc & Href & Hw & Hu)]].
  - by rewrite (armed_nil _ _ H) in Ha.
  - unfold handleUserActivity. destruct (user s) eqn:Hus; [|done].
    destruct (1000 <? now - lastActivityRef s) eqn:Hlt.
    + rewrite resetIdleTimer_held
        by (by apply Inv_held, reachable_Inv || by rewrite Hus).
      eexists. split; [reflexivity|]. cbn. split_and!; (done || lia).
    + exists t. specialize (Hs t). rewrite H, Hc in Hs.
      apply Z.ltb_ge in Hlt.
      split_and!; [done..| |by apply Hs; set_solver|done].
      rewrite Hs by set_solver. lia.
  - rewrite (armed_singleton _ _ _ H), Hc in Ha. done.
Qed.

End schedule.


Section frames.
Implicit Types s : State.

Lemma resetIdleTimer_fields now s :
  loading (resetIdleTimer now s) = loading s ∧
  cookies (resetIdleTimer now s) = cookies s ∧
  pushed (resetIdleTimer now s) = pushed s ∧
  location (resetIdleTimer now s) = location s ∧
  user (resetIdleTimer now s) = user s.
Proof.
  by destruct (resetIdleTimer_shape now s) as (w & r & l & ts & n & ->).
Qed.

Lemma setUser_fields now u s :
  loading (setUser now u s) = loading s ∧
  cookies (setUser now u s) = cookies s ∧
  location (setUser now u s) = location s.
Proof.
  by destruct (setUser_shape now u s) as (w & r & l & ts & n & p & ->).
Qed.

Lemma handleAutoLogout_begin_fields s :
  loading (handleAutoLogout_begin s) = loading s ∧
  cookies (handleAutoLogout_begin s) = cookies s.
Proof.
  unfold handleAutoLogout_begin. by rewrite clearIdleTimers_frame.
Qed.

Lemma fire_fields now id s s' :
  fire now id s = Some s' →
  loading s' = loading s ∧ cookies s' = cookies s.
Proof.
  unfold fire. destruct (filter _ _) as [|t ?]; [done|].
  destruct (due t <=? now); [|done]. intros [= <-].
  destruct (callback t); [done|].
  apply (handleAutoLogout_begin_fields (clearTimeout (Some id) s)).
Qed.

Lemma setLoading_setUser_fields now u s :
  cookies (setLoading false (setUser now u s)) = cookies s ∧
  loading (setLoading false (setUser now u s)) = false.
Proof.
  destruct (setUser_fields now u s) as (_ & Hc & _). revert Hc.
  generalize (setUser now u s). intros y Hc. split; [exact Hc|reflexivity].
Qed.

Lemma onAuthStateChanged_fields now authUser userDoc stored s :
  cookies (onAuthStateChanged now authUser userDoc stored s) = cookies s ∧
  (loading (onAuthStateChanged now authUser userDoc stored s) = loading s ∨
   loading (onAuthStateChanged now authUser userDoc stored s) = false).
Proof.
  unfold onAuthStateChanged. destruct authUser as [a|].
  - destruct userDoc as [[data|]|]; [..|by auto].
    + destruct (setLoading_setUser_fields now (Some (userObject a data)) s).
      by auto.
    + destruct stored; [|by auto].
      destruct (setLoading_setUser_fields now
        (Some (defaultData a ∪ <[js "uid" := Plain (JString (uid a))]> ∅))
        (setDoc (uid a) (defaultData a) s)).
      by auto.
  - destruct (setLoading_setUser_fields now None
      (setShowIdleWarning false (clearIdleTimers s))) as [Hc Hl].
    split; [|by right].
    etrans; [exact Hc|]. by rewrite clearIdleTimers_frame.
Qed.

(** One turn of the event loop clears [loading] when the callback of
    the identity service runs to its end, and leaves it otherwise. *)
Lemma handle_loading now ev s s' :
  handle now ev s = Some s' →
  loading s' = if completes ev then false else loading s.
Proof.
  destruct ev; simpl.
  - intros [= <-]. unfold onAuthStateChanged.
    destruct authUser as [a|]; [|apply setLoading_setUser_fields].
    destruct userDoc as [[data|]|]; [apply setLoading_setUser_fields| |done].
    destruct stored; [apply setLoading_setUser_fields|done].
  - intros [= <-]. unfold refreshUser.
    destruct currentUser; [|done].
    destruct userDoc as [[?|]|]; [|done..]. apply setUser_fields.
  - intros [= <-]. unfold register. by destruct (registered ≫= _).
  - intros [= <-]. unfold login. by destruct loggedIn.
  - intros [= <-]. unfold logout_begin. by rewrite clearIdleTimers_frame.
  - destruct (awaiting_logout s); [done|]. intros [= <-].
    unfold logout_settle. by destruct outcome.
  - intros [= <-]. apply handleAutoLogout_begin_fields.
  - destruct (awaiting_autoLogout s); [done|]. intros [= <-].
    unfold handleAutoLogout_settle. destruct outcome as [[]|e]; [|done].
    apply (setUser_fields now None
      (assign_document_cookie (js "user=;Max-Age=0; path=/")
         (set_awaiting (pred (awaiting_autoLogout s)) (awaiting_logout s) s))).
  - intros [= <-]. unfold handleUserActivity.
    destruct (user s); [|done].
    destruct (1000 <? _); [apply resetIdleTimer_fields|done].
  - intros [= <-]. apply resetIdleTimer_fields.
  - intros H. by apply fire_fields in H as [? _].
  - by intros [= <-].
Qed.

(** X19: after any run of events, [loading] is false when the
    callback of the identity service has run to its end once, and is
    as it was otherwise: no other event changes it, and none sets it
    back to true. *)
Theorem loading_until_listener_completes evs s s' :
  run evs s = Some s' →
  loading s' = if existsb (λ e, completes e.2) evs then false else loading s.
Proof.
  revert s. induction evs as [|[now ev] evs IH]; intros s.
  - by intros [= <-].
  - cbn [run existsb snd].
    destruct (handle now ev s) as [s1|] eqn:H; [|done]. cbn [mbind option_bind].
    intros ->%IH. rewrite (handle_loading _ _ _ _ H).
    destruct (completes ev); cbn [orb]; by destruct (existsb _ _).
Qed.

(** X20: what one turn of the event loop does to the cookies: a
    [register] and a [login] whose external calls succeed store the
    JSON text of role and email as the cookie [user], when role and
    email hold no semicolon; a [logout] and an automatic logout whose
    [logoutUser()] succeeds remove that cookie; and every other event,
    a failed call among them, leaves the cookies as they are. *)
Theorem cookie_after_event now ev s s' :
  handle now ev s = Some s' →
  match ev with
  | Register email role (Ok _) (Ok _) =>
      Forall (λ c, c ≠ ch ";") (role ++ email) →
      cookies s' = <[js "user" := stringify_role_email role email]> (cookies s)
  | Login (Ok u) =>
      Forall (λ c, c ≠ ch ";") (login_role u ++ login_email u) →
      cookies s'
      = <[js "user" := stringify_role_email (login_role u) (login_email u)]>
          (cookies s)
  | LogoutSettled (Ok _) | AutoLogoutSettled (Ok _) =>
      cookies s' = delete (js "user") (cookies s)
  | _ => cookies s' = cookies s
  end.
Proof.
  assert (∀ role email jar,
            Forall (λ c, c ≠ ch ";") (role ++ email) →
            document_cookie_assign
              (js "user=" ++ stringify_role_email role email ++ js "; path=/")
              jar
            = <[js "user" := stringify_role_email role email]> jar) as Hassign.
  { intros role email jar H. apply CookieFacts.assign_user_cookie_jar.
    - by apply CookieFacts.stringify_role_email_keeps; [right|].
    - apply CookieFacts.trim_stringify_role_email. }
  destruct ev; simpl.
  - intros [= <-]. apply onAuthStateChanged_fields.
  - intros [= <-]. unfold refreshUser.
    destruct currentUser; [|done].
    destruct userDoc as [[?|]|]; [|done..]. apply setUser_fields.
  - intros [= <-]. unfold register.
    destruct registered as [[]|e]; [|done].
    destruct loggedIn; [|done]. intros H. by apply Hassign.
  - intros [= <-]. unfold login.
    destruct loggedIn; [|done]. intros H. by apply Hassign.
  - intros [= <-]. unfold logout_begin. by rewrite clearIdleTimers_frame.
  - destruct (awaiting_logout s); [done|]. intros [= <-].
    unfold logout_settle. by destruct outcome.
  - intros [= <-]. apply handleAutoLogout_begin_fields.
  - destruct (awaiting_autoLogout s); [done|]. intros [= <-].
    unfold handleAutoLogout_settle. destruct outcome as [[]|e]; [|done].
    apply (setUser_fields now None
      (assign_document_cookie (js "user=;Max-Age=0; path=/")
         (set_awaiting (pred (awaiting_autoLogout s)) (awaiting_logout s) s))).
  - intros [= <-]. unfold handleUserActivity.
    destruct (user s); [|done].
    destruct (1000 <? _); [apply resetIdleTimer_fields|done].
  - intros [= <-]. apply resetIdleTimer_fields.
  - intros H. by apply fire_fields in H as [_ ?].
  - by intros [= <-].
Qed.

End frames.


Section children.
Implicit Types s : State.

Lemma onAuthStateChanged_existing now a data stored s :
  onAuthStateChanged now (Some a) (Ok (Some data)) stored s
  = setLoading false (setUser now (Some (userObject a data)) s).
Proof. reflexivity. Qed.

Lemma onAuthStateChanged_signed_out now userDoc stored s :
  onAuthStateChanged now None userDoc stored s
  = setLoading false
      (setUser now None (setShowIdleWarning false (clearIdleTimers s))).
Proof. reflexivity. Qed.

Lemma userObject_role a data :
  userObject a data !! js "role" = data !! js "role".
Proof.
  rewrite userObject_lookup. destruct (data !! js "role"); [done|].
  by repeat case_decide.
Qed.

(** What [setUser] pushes for a user that is not null: [/] for a child
    on [/dashboard], and nothing else. *)
Lemma setUser_pushed now u s :
  pushed (setUser now (Some u) s)
  = match u !! js "role" with
    | Some (Plain (JString role)) =>
        if str_eqb role (js "child") && str_eqb (location s) (js "/dashboard")
        then pushed s ++ [js "/"] else pushed s
    | _ => pushed s
    end.
Proof.
  unfold setUser.
  destruct (resetIdleTimer_shape now (set_user (Some u) (user_effect_cleanup s)))
    as (w & r & l & ts & n & ->).
  rewrite user_effect_cleanup_frame. unfold child_effect.
  cbn [user location set_user set_timers set_warningTimerRef
       setShowIdleWarning set_lastActivityRef].
  repeat case_match; done.
Qed.

Lemma pushed_setLoading b s : pushed (setLoading b s) = pushed s.
Proof. reflexivity. Qed.

(** The three cases of what [setUser] pushes. *)
Lemma child_push_cases (role : option Field) (path : jsstring)
    (before : list jsstring) :
  let after :=
    match role with
    | Some (Plain (JString role)) =>
        if str_eqb role (js "child") && str_eqb path (js "/dashboard")
        then before ++ [js "/"] else before
    | _ => before
    end in
  (role = Some (Plain (JString (js "child"))) → path = js "/dashboard" →
   after = before ++ [js "/"]) ∧
  (path ≠ js "/dashboard" → after = before) ∧
  (role ≠ Some (Plain (JString (js "child"))) → after = before).
Proof.
  cbv zeta. split_and!.
  - intros -> ->. by rewrite !str_eqb_refl.
  - intros ->%str_eqb_neq. destruct role as [[[]|]|]; try done.
    by rewrite andb_false_r.
  - intros Hrole. destruct role as [[[| | |r| |]|]|]; try done.
    destruct (str_eqb r (js "child")) eqn:Heq; [|done].
    apply str_eqb_eq in Heq as ->. done.
Qed.

(** X21: when a user with a document signs in, [/] is pushed to the
    router if the role of the document is ['child'] and the window is
    at [/dashboard]; nothing is pushed at any other path or for any
    other role. *)
Theorem child_on_dashboard_sent_home now a data stored s :
  let s' := onAuthStateChanged now (Some a) (Ok (Some data)) stored s in
  (data !! js "role" = Some (Plain (JString (js "child"))) →
   location s = js "/dashboard" → pushed s' = pushed s ++ [js "/"]) ∧
  (location s ≠ js "/dashboard" → pushed s' = pushed s) ∧
  (data !! js "role" ≠ Some (Plain (JString (js "child"))) →
   pushed s' = pushed s).
Proof.
  cbv zeta.
  rewrite onAuthStateChanged_existing, pushed_setLoading, setUser_pushed,
    userObject_role.
  apply child_push_cases.
Qed.

End children.

Section registering.
Implicit Types s : State.
Import Text.

(** X22: a [register] whose external calls succeed, for a role and an
    email of 16-bit code units without percent sign and semicolon,
    resolves to the user of [loginUser], leaves the JSON text of role
    and email in the cookie [user], and pushes [/dashboard] for the
    role ['parent'] and [/] for any other; the guard lets a request for
    that path with that cookie pass, and logs nothing. *)
Theorem register_destination_passes email role u s :
  well_formed role → well_formed email →
  Forall (λ c, c ≠ ch "%") (role ++ email) →
  Forall (λ c, c ≠ ch ";") (role ++ email) →
  let r := register email role (Ok ()) (Ok u) s in
  let destination :=
    if str_eqb role (js "parent") then js "/dashboard" else js "/" in
  r.2 = Ok u ∧
  cookies r.1 !! js "user" = Some (stringify_role_email role email) ∧
  pushed r.1 = pushed s ++ [destination] ∧
  Middleware.middleware {| pathname := destination;
                           user_cookie := cookies r.1 !! js "user" |}
  = pass.
Proof.
  intros Hr He Hpercent Hsemi. cbv zeta.
  unfold register. cbn [mbind result_bind fst snd].
  assert (cookies (router_push
            (if str_eqb role (js "parent") then js "/dashboard" else js "/")
            (assign_document_cookie
               (js "user=" ++ stringify_role_email role email ++ js "; path=/")
               s)) !! js "user"
          = Some (stringify_role_email role email)) as Hcookie.
  { cbn [cookies router_push assign_document_cookie set_cookies].
    apply CookieFacts.assign_user_cookie;
      [|apply CookieFacts.trim_stringify_role_email].
    by apply CookieFacts.stringify_role_email_keeps; [right|]. }
  rewrite Hcookie. split_and!; [done..|].
  unfold Middleware.middleware. cbn [pathname].
  rewrite (MiddlewareFacts.getUser_parsed _ _
             (JObject [(js "role", JString role); (js "email", JString email)])).
  2:{ rewrite decode_no_percent
        by (by apply CookieFacts.stringify_role_email_keeps; [left|]).
      by apply CookieFacts.JSON_parse_role_email. }
  destruct (str_eqb role (js "parent")) eqn:Hrole.
  - apply str_eqb_eq in Hrole as ->. reflexivity.
  - reflexivity.
Qed.

End registering.

Section consumers.
Implicit Types s : State.
Import MyStories.

(** The effect of the page once the provider has loaded. *)
Lemma redirect_effect_loaded u s :
  user s = u →
  redirect_effect (setLoading false s)
  = if match u with
       | Some u => role_is u (js "parent")
       | None => false
       end
    then setLoading false s else router_push (js "/login") (setLoading false s).
Proof.
  intros <-. unfold redirect_effect. cbn [loading user setLoading negb andb].
  destruct (user s); [|done]. by destruct (role_is _ _).
Qed.

(** X23: after the callback of the identity service has run to its
    end, the effect of the My Stories page keeps a user whose object
    has the role ['parent'], among them every user without a document,
    and pushes [/login] for everyone else: a user with another role or
    none, and the null user. *)
Theorem my_stories_for_parents_only now authUser userDoc s :
  let s' := onAuthStateChanged now authUser (Ok userDoc) (Ok ()) s in
  redirect_effect s'
  = if match authUser, userDoc with
       | Some a, Some data => role_is (userObject a data) (js "parent")
       | Some a, None => true
       | None, _ => false
       end
    then s' else router_push (js "/login") s'.
Proof.
  cbv zeta.
  destruct authUser as [a|]; [destruct userDoc as [data|]|];
    rewrite ?onAuthStateChanged_existing, ?onAuthStateChanged_missing,
      ?onAuthStateChanged_signed_out.
  - by rewrite (redirect_effect_loaded (Some (userObject a data)))
      by apply setUser_frame.
  - rewrite (redirect_effect_loaded
      (Some (defaultData a ∪ <[js "uid" := Plain (JString (uid a))]> ∅)))
      by apply setUser_frame.
    assert (role_is (defaultData a ∪ <[js "uid" := Plain (JString (uid a))]> ∅)
              (js "parent") = true) as ->; [|done].
    unfold role_is. rewrite lookup_union.
    destruct (defaultData_lookup a) as (-> & _). done.
  - by rewrite (redirect_effect_loaded None) by apply setUser_frame.
Qed.

End consumers.


(** The session of [signed_in], ten minutes later. *)
Lemma signed_out_clears_session_witness :
  let s' := onAuthStateChanged 600000 None (Ok None) (Ok ()) signed_in in
  user s' = None ∧ timers s' = [] ∧ showIdleWarning s' = false ∧
  loading s' = false ∧
  cookies s' = cookies signed_in ∧ pushed s' = pushed signed_in ∧
  AuthContext.console s' = AuthContext.console signed_in.
Proof. apply signed_out_clears_session, reachable_signed_in. Defined.

Lemma refresh_restarts_countdown_witness :
  let s' := refreshUser 600000 (Some mum) (Ok (Some mum_doc)) signed_in in
  user s' = Some (userObject mum mum_doc) ∧
  showIdleWarning s' = false ∧
  timers s' = [{| timer_id := next_timer_id signed_in;
                  due := 600000 + (IDLE_TIME - WARNING_TIME);
                  callback := ShowWarning |}] ∧
  lastActivityRef s' = 600000 ∧
  loading s' = loading signed_in ∧ cookies s' = cookies signed_in.
Proof. apply refresh_restarts_countdown, reachable_signed_in. Defined.

Lemma logout_outcomes_witness :
  let s' := (logout (Ok ()) signed_in).1 in
  (logout (Ok ()) signed_in).2 = Ok () ∧
  timers s' = [] ∧ showIdleWarning s' = false ∧ user s' = user signed_in ∧
  cookies s' = delete (js "user") (cookies signed_in) ∧
  pushed s' = pushed signed_in ++ [js "/login"] ∧
  AuthContext.console s' = AuthContext.console signed_in.
Proof. apply (logout_outcomes (Ok ())), reachable_signed_in. Defined.

Lemma auto_logout_signs_out_witness :
  let s' := handleAutoLogout 1800000 (Ok ()) signed_in in
  user s' = None ∧ timers s' = [] ∧ showIdleWarning s' = false ∧
  pushed s' = pushed signed_in ++ [js "/login?reason=idle"] ∧
  cookies s' = delete (js "user") (cookies signed_in) ∧
  ∀ p, Middleware.bypassed p = false → Middleware.is_public p = false →
       response (Middleware.middleware
                   {| pathname := p; user_cookie := cookies s' !! js "user" |})
       = redirect (js "/login").
Proof. apply auto_logout_signs_out, reachable_signed_in. Defined.

(** The warning timer of [signed_in]. *)
Lemma timers_on_schedule_witness :
  1500000 = lastActivityRef signed_in + (IDLE_TIME - WARNING_TIME).
Proof.
  apply (timers_on_schedule signed_in
           {| timer_id := 1; due := 1500000; callback := ShowWarning |});
    [apply reachable_signed_in|].
  rewrite (proj1 signed_in_timers). by left.
Defined.

Lemma activity_postpones_warning_witness :
  ∃ t, timers (handleUserActivity 600000 signed_in) = [t] ∧
       callback t = ShowWarning ∧
       600000 + (IDLE_TIME - WARNING_TIME) - 1000 ≤ due t ∧
       due t = lastActivityRef (handleUserActivity 600000 signed_in)
               + (IDLE_TIME - WARNING_TIME) ∧
       showIdleWarning (handleUserActivity 600000 signed_in) = false.
Proof.
  apply activity_postpones_warning; [apply reachable_signed_in|by vm_compute].
Defined.

(** The run that signs in. *)
Lemma loading_until_listener_completes_witness :
  loading signed_in
  = if existsb (λ e, completes e.2) signing_in then false
    else loading (initial 0 ∅ (js "/login")).
Proof. apply loading_until_listener_completes. by vm_compute. Defined.

(** A child logs in. *)
Lemma cookie_after_event_witness :
  cookies (login (Ok {| login_role := js "child";
                        login_email := js "kid@example.org" |})
             (initial 0 ∅ (js "/login"))).1
  = <[js "user" := stringify_role_email (js "child") (js "kid@example.org")]> ∅.
Proof.
  apply (cookie_after_event 0
           (Login (Ok {| login_role := js "child";
                         login_email := js "kid@example.org" |}))
           (initial 0 ∅ (js "/login"))); [reflexivity|].
  vm_compute. repeat constructor; done.
Defined.

(** A child registers. *)
Lemma register_destination_passes_witness :
  let r := register (js "kid@example.org") (js "child") (Ok ())
             (Ok {| login_role := js "child";
                    login_email := js "kid@example.org" |})
             (initial 0 ∅ (js "/register")) in
  r.2 = Ok {| login_role := js "child"; login_email := js "kid@example.org" |} ∧
  cookies r.1 !! js "user"
  = Some (stringify_role_email (js "child") (js "kid@example.org")) ∧
  pushed r.1 = [js "/"] ∧
  Middleware.middleware {| pathname := js "/";
                           user_cookie := cookies r.1 !! js "user" |}
  = pass.
Proof.
  apply (register_destination_passes (js "kid@example.org") (js "child"));
    try apply well_formed_js; vm_compute; repeat constructor; done.
Defined.

(** A child who signs in on [/dashboard] is pushed to [/]; a parent is
    not. *)
Example child_signs_in_on_dashboard :
  let kid_doc : Obj := <[js "role" := Plain (JString (js "child"))]> ∅ in
  pushed (onAuthStateChanged 0 (Some mum) (Ok (Some kid_doc)) (Ok ())
            (initial 0 ∅ (js "/dashboard"))) = [js "/"] ∧
  pushed (onAuthStateChanged 0 (Some mum) (Ok (Some mum_doc)) (Ok ())
            (initial 0 ∅ (js "/dashboard"))) = [].
Proof. by vm_compute. Qed.

End SessionFacts.
